(** * React lesson snippets: a shallow embedding of the example code

    The repository is a set of lessons whose code blocks are small,
    independent JavaScript/JSX programs.  This development embeds the
    ones that carry behaviour:

    - [Reducer]: [tasksReducer] from the lesson on [useReducer];
    - [PropsExample]: [ParentComponent] and [Avatar] from the props example;
    - [ConditionalRendering]: the three [Item] components;
    - [Cart]: the [useCart] custom hook;
    - [TaskApp]: the two [handleAddTask] handlers around the reducer;
    - [PurityLesson]: the impure and the pure reducer, and [userReducer];
    - [PropsMore], [RenderingMore]: [GenericButton], the fourth [Item],
      the message count and [RecipeList];
    - [StateLessons]: [AddressBook], [ChatApp] and the [Chat] that keeps
      its draft in the local storage.

    JavaScript is dynamically typed, so the embedding works over a small
    universe of JavaScript values.  Numbers are the integers among the
    doubles (the ids, counters and prices of the lessons), with their
    addition and their conversion to a string in [Double]; the reducer,
    which compares ids, also has NaN among its values.  Fractions and
    the infinities are outside the model. *)

From stdpp Require Import gmap strings list pretty.

Set Warnings "-register-all".

Open Scope string_scope.
Open Scope list_scope.
Open Scope nat_scope.

(** ** Errors and completions *)

(** The two kinds of exception the snippets can raise: an [Error] built
    by the program with a message, and the [TypeError] the language
    raises itself (the text of its message is engine specific and is not
    modelled). *)
Inductive error :=
  | Error (message : string)
  | TypeError.

(** A call either returns a value or throws. *)
Inductive outcome (A : Type) :=
  | Return (a : A)
  | Throw (e : error).
Arguments Return {A} a.
Arguments Throw {A} e.

#[global] Instance error_eq_dec : EqDecision error.
Proof. solve_decision. Defined.

(** ** Numbers

    A JavaScript number is an IEEE 754 double.  The integers up to 2^53
    in absolute value are all doubles; beyond, a double keeps 53
    significant bits.  An integer [z : Z] stands for the double nearest
    to it. *)
Module Double.

Definition two53 : Z := 9007199254740992.

(** The double nearest to an integer (round to nearest, ties to the
    even significand).  [u] is the distance between [z] and the next
    double of larger magnitude. *)
Definition round (z : Z) : Z :=
  let a := Z.abs z in
  if (a <=? two53)%Z then z
  else
    let u := (2 ^ (Z.log2 a - 52))%Z in
    let q := (a / u)%Z in
    let r := (a mod u)%Z in
    let q' := if (u <? 2 * r)%Z || ((2 * r =? u)%Z && Z.odd q)
              then (q + 1)%Z else q in
    (Z.sgn z * (q' * u))%Z.

(** [a + b] on numbers: the exact sum, rounded.  (A sum beyond the
    largest double, about 1.8e308, is an infinity and is not
    modelled.) *)
Definition add (a b : Z) : Z := round (a + b).

(** *** Conversion to a string

    [Number.prototype.toString]: the digits are those of the decimal
    number with the fewest significant digits that still designates the
    double (the nearest to it if there are two); from 1e21 on the
    result is in exponential notation. *)

(** The multiple of [m] designating the double [z], among the two
    around [z]. *)
Definition nearest_multiple (z m : Z) : option Z :=
  let lo := (z / m * m)%Z in
  let hi := (lo + m)%Z in
  match (round lo =? z)%Z, (round hi =? z)%Z with
  | true, true => Some (if (z - lo <=? hi - z)%Z then lo else hi)
  | true, false => Some lo
  | false, true => Some hi
  | false, false => None
  end.

(** The integer with the fewest significant digits that designates the
    double [z]: a multiple of the largest possible power [10 ^ p]. *)
Fixpoint shortest (p : nat) (z : Z) : Z :=
  match p with
  | O => z
  | S p' =>
      match nearest_multiple z (10 ^ Z.of_nat p) with
      | Some c => c
      | None => shortest p' z
      end
  end.

(** [c] without its trailing zeros. *)
Fixpoint significand (n : nat) (c : Z) : Z :=
  match n with
  | O => c
  | S n' => if (c mod 10 =? 0)%Z then significand n' (c / 10) else c
  end.

(** [d.ddde+n] for a positive integer [c]. *)
Definition exponential (c : Z) : string :=
  let n := String.length (pretty c) in
  match pretty (significand n c) with
  | EmptyString => ""
  | String d ds =>
      String d (match ds with EmptyString => "" | _ => "." +:+ ds end)
      +:+ "e+" +:+ pretty (n - 1)
  end.

Definition to_string (z : Z) : string :=
  if (Z.abs z <=? two53)%Z then pretty z
  else
    let a := Z.abs (round z) in
    let c := shortest (String.length (pretty a) - 1) a in
    (if (z <? 0)%Z then "-" else "")
    +:+ (if (c <? 10 ^ 21)%Z then pretty c else exponential c).

End Double.

Module Reducer.

(** ** Values and the object store *)

Abbreviation loc := nat (only parsing).

(** A value is a primitive or a reference to an object of the store;
    two references are equal iff they designate the same object.  The
    numbers are the integers and NaN. *)
Inductive value :=
  | VUndefined
  | VNull
  | VBool (b : bool)
  | VNumber (z : Z)
  | VNaN
  | VString (s : string)
  | VRef (l : loc).

#[global] Instance value_eq_dec : EqDecision value.
Proof. solve_decision. Defined.

(** Stored objects: plain objects (a finite map from property names to
    values, data properties only) and dense arrays. *)
Inductive object :=
  | Obj (props : gmap string value)
  | Arr (elems : list value).

#[global] Instance object_eq_dec : EqDecision object.
Proof. solve_decision. Defined.

(** The store is the sequence of all objects allocated so far; a
    location is an index into it.  Nothing is ever deallocated. *)
Abbreviation heap := (list object) (only parsing).

(** ** The evaluation monad: store passing with exceptions *)

Definition M (A : Type) : Type := heap -> heap * outcome A.

Definition ret {A} (a : A) : M A := fun h => (h, Return a).
Definition throw {A} (e : error) : M A := fun h => (h, Throw e).
Definition bind {A B} (m : M A) (k : A -> M B) : M B :=
  fun h => match m h with
           | (h', Return a) => k a h'
           | (h', Throw e) => (h', Throw e)
           end.

Notation "'do' x <- m ; k" := (bind m (fun x => k))
  (at level 10, x name, m at level 100, k at level 200).

(** [{...}] and [[...]] literals allocate a new object. *)
Definition alloc (o : object) : M value :=
  fun h => (h ++ [o], Return (VRef (length h))).

(** ** Language primitives used by the reducer *)

(** [a === b]: equality of the types and of the values (of the
    identities, for references), except that NaN is not equal to
    anything, itself included. *)
Definition strict_eq (a b : value) : bool :=
  match a, b with
  | VUndefined, VUndefined => true
  | VNull, VNull => true
  | VBool x, VBool y => Bool.eqb x y
  | VNumber x, VNumber y => Z.eqb x y
  | VString x, VString y => String.eqb x y
  | VRef x, VRef y => Nat.eqb x y
  | _, _ => false
  end.

(** [v.name], for the property names the reducer reads ([type], [id],
    [text], [task]): reading a property of [undefined] or [null] throws
    a TypeError; a plain object yields the stored value, or [undefined]
    when it has no such property; arrays and primitives have none of
    these properties.  (A reference outside the store, which no program
    can hold, reads like an object without properties.) *)
Definition get_prop (v : value) (name : string) : M value :=
  fun h =>
    match v with
    | VUndefined | VNull => (h, Throw TypeError)
    | VRef l =>
        match h !! l with
        | Some (Obj props) => (h, Return (default VUndefined (props !! name)))
        | _ => (h, Return VUndefined)
        end
    | _ => (h, Return VUndefined)
    end.

(** The elements of [tasks] as seen by [...tasks], [tasks.map] and
    [tasks.filter]: a plain object is not iterable and has no callable
    [map] or [filter], so each of the three throws a TypeError on it
    (as does, in the model, a reference outside the store). *)
Definition array_elems (tasks : loc) : M (list value) :=
  fun h =>
    match h !! tasks with
    | Some (Arr es) => (h, Return es)
    | _ => (h, Throw TypeError)
    end.

(** [Array.prototype.map] with a callback that may throw. *)
Fixpoint array_map (f : value -> M value) (es : list value) : M (list value) :=
  match es with
  | [] => ret []
  | e :: es' =>
      do x <- f e;
      do xs <- array_map f es';
      ret (x :: xs)
  end.

(** [Array.prototype.filter] with a predicate that may throw. *)
Fixpoint array_filter (p : value -> M bool) (es : list value) : M (list value) :=
  match es with
  | [] => ret []
  | e :: es' =>
      do keep <- p e;
      do xs <- array_filter p es';
      ret (if keep then e :: xs else xs)
  end.

(** String conversion, as performed by [string + v].  An array converts
    to its elements joined by commas ([undefined] and [null] elements
    give the empty string, an array met again inside itself gives the
    empty string).  A plain object converts through the [toString] it
    inherits, to ["[object Object]"]; when it has a [toString] property
    of its own, which in this universe of values is never a function,
    there is nothing to call and the conversion throws a TypeError
    ([None]). *)
Definition join (sep : string) (l : list string) : string :=
  match l with
  | [] => ""
  | s :: l' => fold_left (fun acc x => acc +:+ sep +:+ x) l' s
  end.

Fixpoint to_string_aux (fuel : nat) (h : heap) (stack : list loc) (v : value)
  {struct fuel} : option string :=
  match v with
  | VUndefined => Some "undefined"
  | VNull => Some "null"
  | VBool true => Some "true"
  | VBool false => Some "false"
  | VNumber z => Some (Double.to_string z)
  | VNaN => Some "NaN"
  | VString s => Some s
  | VRef l =>
      match h !! l with
      | Some (Arr es) =>
          match fuel with
          | O => Some ""
          | S n =>
              if bool_decide (l ∈ stack) then Some ""
              else join "," <$>
                     mapM (fun e => match e with
                                    | VUndefined | VNull => Some ""
                                    | _ => to_string_aux n h (l :: stack) e
                                    end) es
          end
      | Some (Obj props) =>
          match props !! "toString" with
          | Some _ => None
          | None => Some "[object Object]"
          end
      | None => Some "[object Object]"
      end
  end.

(** The string that [v] converts to in store [h], if any. *)
Definition string_of (h : heap) (v : value) : option string :=
  to_string_aux (S (length h)) h [] v.

Definition to_string (v : value) : M string :=
  fun h => (h, match string_of h v with
               | Some s => Return s
               | None => Throw TypeError
               end).

(** ** The reducer

    From the lesson on the need for [useReducer]
    ([3_State_Management_Deep_Dive/7_The_need_of_UseReducer/README.md],
    step 2, file [tasksReducer.js]):
<<
export function tasksReducer(tasks, action) {
  switch (action.type) {
    case 'added': {
      return [...tasks, { id: action.id, text: action.text, done: false }];
    }
    case 'changed': {
      return tasks.map(t => {
        if (t.id === action.task.id) { return action.task; } else { return t; }
      });
    }
    case 'deleted': {
      return tasks.filter(t => t.id !== action.id);
    }
    default: {
      throw Error('Unknown action: ' + action.type);
    }
  }
}
>>
    [tasks] is the reference the caller holds to the state array. *)

Definition new_task (id text : value) : object :=
  Obj (<["id" := id]> (<["text" := text]> (<["done" := VBool false]> ∅))).

Definition changed_callback (action : value) (t : value) : M value :=
  do tid <- get_prop t "id";
  do task <- get_prop action "task";
  do aid <- get_prop task "id";
  if strict_eq tid aid then get_prop action "task" else ret t.

Definition deleted_callback (action : value) (t : value) : M bool :=
  do tid <- get_prop t "id";
  do aid <- get_prop action "id";
  ret (negb (strict_eq tid aid)).

Definition tasksReducer (tasks : loc) (action : value) : M value :=
  do ty <- get_prop action "type";
  if strict_eq ty (VString "added") then
    do es <- array_elems tasks;
    do id <- get_prop action "id";
    do text <- get_prop action "text";
    do t <- alloc (new_task id text);
    alloc (Arr (es ++ [t]))
  else if strict_eq ty (VString "changed") then
    do es <- array_elems tasks;
    do es' <- array_map (changed_callback action) es;
    alloc (Arr es')
  else if strict_eq ty (VString "deleted") then
    do es <- array_elems tasks;
    do es' <- array_filter (deleted_callback action) es;
    alloc (Arr es')
  else
    do ty' <- get_prop action "type";
    do s <- to_string ty';
    throw (Error ("Unknown action: " +:+ s)).

(** ** Vocabulary for the specification *)

(** [undefined] and [null] are the values without properties. *)
Definition nullish (v : value) : bool :=
  match v with
  | VUndefined | VNull => true
  | _ => false
  end.

(** The value of [v.name] in store [h], for a [v] that has properties. *)
Definition read (h : heap) (v : value) (name : string) : value :=
  match v with
  | VRef l =>
      match h !! l with
      | Some (Obj props) => default VUndefined (props !! name)
      | _ => VUndefined
      end
  | _ => VUndefined
  end.

(** [v] is a reference to a plain object of the store. *)
Definition is_object (h : heap) (v : value) : bool :=
  match v with
  | VRef l =>
      match h !! l with
      | Some (Obj _) => true
      | _ => false
      end
  | _ => false
  end.

(** [tasks] is a tasks list with elements [es]: an array of the store
    whose elements are (references to) objects. *)
Definition tasks_list (h : heap) (tasks : loc) (es : list value) : Prop :=
  h !! tasks = Some (Arr es) ∧ forallb (is_object h) es = true.

(** The call [tasksReducer(tasks, action)] returns (does not throw). *)
Definition returns_normally (h : heap) (tasks : loc) (action : value) : Prop :=
  ∃ h' r, tasksReducer tasks action h = (h', Return r).

(** Two ids are the same id when they are equal and are not NaN, which
    is no one's id: [NaN === NaN] is false. *)
Definition same_id (a b : value) : Prop := a = b ∧ a ≠ VNaN.

#[global] Instance same_id_dec a b : Decision (same_id a b).
Proof. unfold same_id. apply _. Defined.

(** The three action types the reducer handles. *)
Definition known_type (ty : value) : Prop :=
  ty = VString "added" ∨ ty = VString "changed" ∨ ty = VString "deleted".

(** The objects that can be reached from a value by following
    references through properties and array elements. *)
Inductive reach (h : heap) : value -> loc -> Prop :=
  | reach_here l : reach h (VRef l) l
  | reach_prop l props k v l' :
      h !! l = Some (Obj props) -> props !! k = Some v -> reach h v l' ->
      reach h (VRef l) l'
  | reach_elem l es v l' :
      h !! l = Some (Arr es) -> v ∈ es -> reach h v l' ->
      reach h (VRef l) l'.

(** Two stores hold the same arguments [tasks] and [action]: every
    object reachable from them is allocated and has the same content in
    both.  The stores may differ in any other way. *)
Definition same_arguments (h1 h2 : heap) (tasks : loc) (action : value) : Prop :=
  ∀ l, reach h1 (VRef tasks) l ∨ reach h1 action l ->
       is_Some (h1 !! l) ∧ h2 !! l = h1 !! l.

(** What a caller can see of a result: the error thrown, or the elements
    of the returned array, each object element by its content. *)
Definition view (h : heap) (v : value) : value + object :=
  match v with
  | VRef l =>
      match h !! l with
      | Some o => inr o
      | None => inl v
      end
  | _ => inl v
  end.

Definition observe (r : heap * outcome value) : outcome (option (list (value + object))) :=
  match r.2 with
  | Throw e => Throw e
  | Return (VRef l) =>
      match r.1 !! l with
      | Some (Arr es) => Return (Some (map (view r.1) es))
      | _ => Return None
      end
  | Return _ => Return None
  end.

(** A store is closed when every reference held by one of its objects
    designates an object of the store (no dangling reference). *)
Definition valid (h : heap) (v : value) : bool :=
  match v with
  | VRef l => bool_decide (l < length h)
  | _ => true
  end.

Definition closed (h : heap) : bool :=
  forallb (fun o => match o with
                    | Obj props => forallb (valid h) (snd <$> map_to_list props)
                    | Arr es => forallb (valid h) es
                    end) h.

(** ** A sample store

    Two tasks (0, 1), the tasks list (2), an ['added'] action (3), an
    edited task (4) and the ['changed'] action carrying it (5), two
    ['deleted'] actions (6, 7), a ['changed'] action with no task (8)
    and an action of an unknown type (9). *)
Definition obj (fields : list (string * value)) : object :=
  Obj (list_to_map fields).

Definition sample : heap :=
  [ obj [("id", VNumber 0); ("text", VString "a"); ("done", VBool true)];
    obj [("id", VNumber 1); ("text", VString "b"); ("done", VBool false)];
    Arr [VRef 0; VRef 1];
    obj [("type", VString "added"); ("id", VNumber 2); ("text", VString "c")];
    obj [("id", VNumber 1); ("text", VString "b"); ("done", VBool true)];
    obj [("type", VString "changed"); ("task", VRef 4)];
    obj [("type", VString "deleted"); ("id", VNumber 1)];
    obj [("type", VString "deleted"); ("id", VNumber 2)];
    obj [("type", VString "changed")];
    obj [("type", VString "renamed")] ].

(** The sample store with two more actions, whose id is NaN: an
    ['added'] action (10) and a ['deleted'] action (11). *)
Definition sample_nan : heap :=
  sample ++
  [ obj [("type", VString "added"); ("id", VNaN); ("text", VString "c")];
    obj [("type", VString "deleted"); ("id", VNaN)] ].

(** A computation is a read when it leaves the store as it found it. *)
Definition is_read {A} (m : M A) : Prop := ∀ h, (m h).1 = h.

(** The two ways a call on store [h] can end: it throws in the store it
    was given, or it returns a reference to an array allocated by the
    call (after other allocations [k]), having read the array [tasks]. *)
Definition call_shape (h : heap) (tasks : loc) (r : heap * outcome value) : Prop :=
  (∃ e, r = (h, Throw e)) ∨
  (∃ k es, r = (h ++ k ++ [Arr es], Return (VRef (length (h ++ k)))) ∧
           is_Some (h !! tasks)).

End Reducer.

(** ** JSX elements

    What a JSX expression evaluates to: a description of an element (its
    type, its props and its children), not yet anything on the screen. *)
Module JSX.

Inductive value :=
  | VUndefined
  | VNull
  | VBool (b : bool)
  | VNumber (z : Z)
  | VString (s : string)
  | VObject (fields : gmap string value).

(** The component functions that the JSX tags of the examples refer to.
    [Card] is imported from [./3_lastComponent]; elements of that type
    are kept as they are created. *)
Inductive component := AvatarC | CardC.

Inductive elem_type :=
  | Host (tag : string)
  | Component (c : component)
  | Fragment.

Inductive node :=
  | Element (type : elem_type) (props : gmap string value) (children : list node)
  | Text (s : string)
  | Expr (v : value).

(** Object destructuring and [props.name]: a missing property reads as
    [undefined]. *)
Definition prop (props : gmap string value) (name : string) : value :=
  default VUndefined (props !! name).

(** [v.name] on an arbitrary value. *)
Definition get_field (v : value) (name : string) : outcome value :=
  match v with
  | VUndefined | VNull => Throw TypeError
  | VObject fields => Return (prop fields name)
  | _ => Return VUndefined
  end.

End JSX.

(** ** The props example: [ParentComponent] renders [Avatar] *)
Module PropsExample.
Import JSX.

(** [Examples/src/Components/2_MiddleComponent.jsx]:
<<
export default function Avatar({ name, imageId, size }) {
  return (
    <>
      <img className="avatar" src={imageId} alt={name}
           width={size} height={size} />
      <Card>
        <h2>{name}</h2>
        <img className="avatar" src={imageId} />
        <p> Lorem ipsum ... </p>
      </Card>
    </>
  );
}
>>
    The parameter pattern reads the properties [name], [imageId] and
    [size] of the props object. *)
Definition Avatar (props : gmap string value) : node :=
  let name := prop props "name" in
  let imageId := prop props "imageId" in
  let size := prop props "size" in
  Element Fragment ∅
    [ Element (Host "img")
        (<["className" := VString "avatar"]>
           (<["src" := imageId]>
              (<["alt" := name]>
                 (<["width" := size]> (<["height" := size]> ∅)))))
        [];
      Element (Component CardC) ∅
        [ Element (Host "h2") ∅ [Expr name];
          Element (Host "img")
            (<["className" := VString "avatar"]> (<["src" := imageId]> ∅)) [];
          Element (Host "p") ∅
            [Text ("Lorem ipsum dolor sit amet consectetur adipisicing elit. Iure soluta "
                   +:+ "tenetur aliquam autem, quisquam modi molestiae nemo tempora "
                   +:+ "consectetur reiciendis sapiente laudantium accusamus nulla animi "
                   +:+ "quidem necessitatibus ipsa, eaque aperiam?")] ] ].

(** [Examples/src/Components/1_ParentComponent.jsx]:
<<
export default function ParentComponent() {
  const user = { name: "Lin Lanying", imageId: "1bX5QH6" };
  return (
    <div>
      <Avatar person={user} size={100} />
    </div>
  );
}
>> *)
Definition user : value :=
  VObject (<["name" := VString "Lin Lanying"]>
             (<["imageId" := VString "1bX5QH6"]> ∅)).

Definition ParentComponent : node :=
  Element (Host "div") ∅
    [ Element (Component AvatarC)
        (<["person" := user]> (<["size" := VNumber 100]> ∅)) [] ].

(** Rendering calls each component function with the props of its
    element.  [Avatar]'s output holds no further [Avatar] element, so
    one pass is the whole expansion. *)
Fixpoint render (n : node) : node :=
  match n with
  | Element (Component AvatarC) props _ => Avatar props
  | Element type props children => Element type props (map render children)
  | Text s => Text s
  | Expr v => Expr v
  end.

(** The props of the host elements with a given tag, in document order. *)
Fixpoint host_elements (tag : string) (n : node) : list (gmap string value) :=
  match n with
  | Element type props children =>
      (match type with
       | Host t => if String.eqb t tag then [props] else []
       | _ => []
       end) ++ flat_map (host_elements tag) children
  | _ => []
  end.

(** The [Avatar] of the lesson text
    ([1_Getting_Started_Describing_The_UI/6_Props/README.md], section 4),
    which reads the [person] and [size] props:
<<
function Avatar({ person, size }) {
  return (
    <img className="avatar" src={person.imageId} alt={person.name}
         width={size} height={size} />
  );
}
>> *)
Definition Avatar_documented (props : gmap string value) : outcome node :=
  let person := prop props "person" in
  let size := prop props "size" in
  match get_field person "imageId" with
  | Throw e => Throw e
  | Return imageId =>
      match get_field person "name" with
      | Throw e => Throw e
      | Return name =>
          Return (Element (Host "img")
                    (<["className" := VString "avatar"]>
                       (<["src" := imageId]>
                          (<["alt" := name]>
                             (<["width" := size]> (<["height" := size]> ∅)))))
                    [])
      end
  end.

End PropsExample.

(** ** Conditional rendering: three ways to write [Item] *)
Module ConditionalRendering.
Import JSX.

Definition li (children : list node) : node :=
  Element (Host "li") (<["className" := VString "item"]> ∅) children.

(** Method 1 of the lesson on conditional rendering, the [if]
    statement:
<<
function Item({ name, isPacked }) {
  if (isPacked) {
    return <li className="item">{name} ✔</li>;
  }
  return <li className="item">{name}</li>;
}
>>
    The text after [{name}] stays on its line, so its leading space is
    kept. *)
Definition Item_if (name : string) (isPacked : bool) : node :=
  if isPacked then li [Expr (VString name); Text " ✔"]
  else li [Expr (VString name)].

(** Method 2, the ternary operator:
<<
function Item({ name, isPacked }) {
  return (
    <li className="item">
      {isPacked ? name + " ✔" : name}
    </li>
  );
}
>>
    Text made of white space with a line break in it is dropped. *)
Definition Item_ternary (name : string) (isPacked : bool) : node :=
  li [Expr (if isPacked then VString (name +:+ " ✔") else VString name)].

(** [a && b] on a boolean left operand. *)
Definition js_and (a : bool) (b : value) : value :=
  if a then b else VBool false.

(** Method 3, the logical AND:
<<
function Item({ name, isPacked }) {
  return (
    <li className="item">
      {name} {isPacked && "✔"}
    </li>
  );
}
>>
    The single space between the two expressions is on one line and is
    kept as a text child. *)
Definition Item_and (name : string) (isPacked : bool) : node :=
  li [Expr (VString name); Text " "; Expr (js_and isPacked (VString "✔"))].

(** *** What ends up on the screen *)

(** The text a child expression renders: strings and numbers render as
    text; booleans, [null] and [undefined] render nothing; an object is
    not a valid child ([None]). *)
Definition expr_text (v : value) : option string :=
  match v with
  | VString s => Some s
  | VNumber z => Some (Double.to_string z)
  | VBool _ | VNull | VUndefined => Some ""
  | VObject _ => None
  end.

(** The DOM text content of a rendered node. *)
Fixpoint textContent (n : node) : option string :=
  match n with
  | Text s => Some s
  | Expr v => expr_text v
  | Element _ _ children =>
      foldr (fun c acc =>
               match textContent c, acc with
               | Some s, Some t => Some (s +:+ t)
               | _, _ => None
               end) (Some "") children
  end.

(** White space that the browser collapses when it lays text out:
    space, tab, line feed and carriage return. *)
Definition is_space (c : Ascii.ascii) : bool :=
  let n := Ascii.nat_of_ascii c in
  Nat.eqb n 32 || Nat.eqb n 9 || Nat.eqb n 10 || Nat.eqb n 13.

(** The words of a text: its maximal runs of characters that are not
    white space.  [cur] is the word being read. *)
Fixpoint split_words (cur : string) (s : string) : list string :=
  match s with
  | EmptyString =>
      match cur with EmptyString => [] | _ => [cur] end
  | String c s' =>
      if is_space c then
        match cur with
        | EmptyString => split_words "" s'
        | _ => cur :: split_words "" s'
        end
      else split_words (cur +:+ String c "") s'
  end.

Definition join_words (ws : list string) : string :=
  match ws with
  | [] => ""
  | w :: ws' => fold_left (fun acc x => acc +:+ " " +:+ x) ws' w
  end.

(** What is visible of a text laid out in a block with normal white
    space processing: runs of white space collapse to one space, and
    white space at the start and at the end of the block is removed. *)
Definition visible (s : string) : string := join_words (split_words "" s).

Definition visibleContent (n : node) : option string :=
  visible <$> textContent n.

End ConditionalRendering.

(** ** The [useCart] custom hook

    From the lesson on custom hooks (pattern 1, stateful hooks, file
    [use-cart.js]). *)
Module Cart.

(** A cart item, with the two properties the hook reads; ids and prices
    are integers. *)
Record item := { id : Z; price : Z }.

(** The values held by the two state variables: an array of items and a
    number. *)
Inductive value :=
  | VItems (its : list item)
  | VNumber (z : Z).

(** [recv.find(cb)].  Arrays have a [find] method; numbers do not:
    [recv.find] is then [undefined] and calling it throws a TypeError
    before [cb] is ever applied. *)
Definition js_find (recv : value) (cb : item -> bool) : outcome (option item) :=
  match recv with
  | VItems its => Return (List.find cb its)
  | VNumber _ => Throw TypeError
  end.

(** [recv.filter(cb)], likewise. *)
Definition js_filter (recv : value) (cb : item -> bool) : outcome (list item) :=
  match recv with
  | VItems its => Return (List.filter cb its)
  | VNumber _ => Throw TypeError
  end.

(** [itemToRemove?.price || 0]: the price of the item found when it is
    not zero, and 0 otherwise. *)
Definition price_or_zero (itemToRemove : option item) : Z :=
  match itemToRemove with
  | None => 0
  | Some it => if Z.eqb it.(price) 0 then 0 else it.(price)
  end.

(** The two state variables of the hook:
    [useState([])] and [useState(0)]. *)
Record state := { items : list item; total : Z }.

Definition initial : state := {| items := []; total := 0 |}.

(** An updater is a function handed to a state setter; it receives the
    previous value of that state variable. *)
Definition updater (T : Type) : Type := T -> outcome T.

(** React runs the queued updaters, each on its own state variable, when
    it renders next; an updater that throws makes that render throw. *)
Definition apply_updaters (ui : updater (list item)) (ut : updater Z)
    (s : state) : outcome state :=
  match ui s.(items) with
  | Throw e => Throw e
  | Return its =>
      match ut s.(total) with
      | Throw e => Throw e
      | Return t => Return {| items := its; total := t |}
      end
  end.

(**
<<
  const addItem = (item) => {
    setItems(prev => [...prev, item]);
    setTotal(prev => prev + item.price);
  };
>> *)
Definition addItem_items (it : item) : updater (list item) :=
  fun prev => Return (prev ++ [it]).

Definition addItem_total (it : item) : updater Z :=
  fun prev => Return (Double.add prev it.(price)).

Definition addItem (it : item) : state -> outcome state :=
  apply_updaters (addItem_items it) (addItem_total it).

(**
<<
  const removeItem = (id) => {
    setItems(prev => prev.filter(item => item.id !== id));
    setTotal(prev => {
      const itemToRemove = prev.find(item => item.id === id);
      return prev - (itemToRemove?.price || 0);
    });
  };
>>
    In the first updater [prev] is the previous array of items; in the
    second one [prev] is the previous total. *)
Definition removeItem_items (i : Z) : updater (list item) :=
  fun prev => js_filter (VItems prev) (fun it => negb (Z.eqb it.(id) i)).

Definition removeItem_total (i : Z) : updater Z :=
  fun prev =>
    match js_find (VNumber prev) (fun it => Z.eqb it.(id) i) with
    | Throw e => Throw e
    | Return itemToRemove => Return (prev - price_or_zero itemToRemove)%Z
    end.

Definition removeItem (i : Z) : state -> outcome state :=
  apply_updaters (removeItem_items i) (removeItem_total i).

(**
<<
export function useCart() {
  const [items, setItems] = useState([]);
  const [total, setTotal] = useState(0);
  ...
  return { items, total, addItem, removeItem };
}
>>
    What the hook returns in a render whose state is [s]: the two state
    values and the two actions.  An action is given by the state of the
    next render, or the error that render throws. *)
Record cart := {
  cart_items : list item;
  cart_total : Z;
  cart_addItem : item -> outcome state;
  cart_removeItem : Z -> outcome state
}.

Definition useCart (s : state) : cart :=
  {| cart_items := s.(items);
     cart_total := s.(total);
     cart_addItem := fun it => addItem it s;
     cart_removeItem := fun i => removeItem i s |}.

(** A sequence of calls made by the components that use the hook. *)
Inductive call := AddItem (it : item) | RemoveItem (i : Z).

Definition step (c : call) (s : state) : outcome state :=
  match c with
  | AddItem it => (useCart s).(cart_addItem) it
  | RemoveItem i => (useCart s).(cart_removeItem) i
  end.

Fixpoint run (cs : list call) (s : state) : outcome state :=
  match cs with
  | [] => Return s
  | c :: cs' =>
      match step c s with
      | Throw e => Throw e
      | Return s' => run cs' s'
      end
  end.

(** The sum of the prices of a list of items. *)
Definition sum_prices (its : list item) : Z :=
  fold_right (fun it acc => it.(price) + acc)%Z 0%Z its.

(** The sum of the absolute values of the prices, which bounds the sum
    of the prices of any part of the list. *)
Definition sum_abs_prices (its : list item) : Z :=
  fold_right (fun it acc => Z.abs it.(price) + acc)%Z 0%Z its.

End Cart.

(** ** The handlers that add a task, before and after the move to a reducer

    From step 1 of the lesson on the need for [useReducer]
    ([3_State_Management_Deep_Dive/7_The_need_of_UseReducer/README.md]).
    [nextId] is the counter that the handlers increment, a number; each
    handler is given its value and returns the new one, [nextId + 1] as
    the addition of numbers gives it, beside the next state. *)
Module TaskApp.
Import Reducer.

(** The ids of a list of tasks, in order. *)
Definition ids (h : heap) (es : list value) : list value :=
  map (fun t => read h t "id") es.

(**
<<
// BEFORE (useState)
function handleAddTask(text) {
  setTasks([...tasks, { id: nextId++, text: text, done: false }]);
}
>>
    The argument of [setTasks] is the next state. *)
Definition handleAddTask_useState (nextId : Z) (tasks : loc) (text : value)
  : M (Z * value) :=
  do es <- array_elems tasks;
  do t <- alloc (new_task (VNumber nextId) text);
  do next <- alloc (Arr (es ++ [t]));
  ret (Double.add nextId 1, next).

(** [dispatch(action)], with [const [tasks, dispatch] =
    useReducer(tasksReducer, initialTasks)]: the next state is what the
    reducer returns for the current state and the action. *)
Definition dispatch (tasks : loc) (action : value) : M value :=
  tasksReducer tasks action.

(**
<<
// AFTER (useReducer)
function handleAddTask(text) {
  dispatch({
    type: 'added',
    id: nextId++,
    text: text
  });
}
>> *)
Definition handleAddTask_useReducer (nextId : Z) (tasks : loc) (text : value)
  : M (Z * value) :=
  do action <- alloc (Obj (<["type" := VString "added"]>
                             (<["id" := VNumber nextId]>
                                (<["text" := text]> ∅))));
  do next <- dispatch tasks action;
  ret (Double.add nextId 1, next).

(** The sample store with three more objects: an empty tasks list (10),
    a task whose id no task of the list (2) has (11) and the
    ['changed'] action carrying it (12). *)
Definition sample2 : heap :=
  sample ++
  [ Arr [];
    obj [("id", VNumber 7); ("text", VString "z"); ("done", VBool false)];
    obj [("type", VString "changed"); ("task", VRef 11)] ].

End TaskApp.

(** ** The impure and the pure reducer of the lesson on reducer purity

    From [3_State_Management_Deep_Dive/6_Resetting_state_at_same_Position/README.md],
    principle 1.  Both functions are called [tasksReducer] there. *)
Module PurityLesson.
Import Reducer.

(** [{ id: ..., text: ... }] *)
Definition new_item (id text : value) : object :=
  Obj (<["id" := id]> (<["text" := text]> ∅)).

(** [tasks.push(v)]: appends [v] to the array in place and returns the
    new length; on anything but an array there is no callable [push] and
    the call throws a TypeError. *)
Definition array_push (tasks : loc) (v : value) : M value :=
  fun h =>
    match h !! tasks with
    | Some (Arr es) =>
        (<[tasks := Arr (es ++ [v])]> h,
         Return (VNumber (Z.of_nat (length es) + 1)))
    | _ => (h, Throw TypeError)
    end.

(**
<<
// AVOID THIS: Impure Reducer
function tasksReducer(tasks, action) {
  if (action.type === "added") {
    // WRONG: This mutates the original state array.
    tasks.push({ id: action.id, text: action.text });
    return tasks;
  }
}
>>
    The argument of [push] is evaluated before the call is attempted; a
    function that ends without [return] returns [undefined]. *)
Definition tasksReducer_impure (tasks : loc) (action : value) : M value :=
  do ty <- get_prop action "type";
  if strict_eq ty (VString "added") then
    do id <- get_prop action "id";
    do text <- get_prop action "text";
    do t <- alloc (new_item id text);
    do len <- array_push tasks t;
    ret (VRef tasks)
  else ret VUndefined.

(**
<<
// DO THIS: Pure Reducer
function tasksReducer(tasks, action) {
  if (action.type === "added") {
    // CORRECT: This returns a new array with the new item.
    return [...tasks, { id: action.id, text: action.text }];
  }
}
>> *)
Definition tasksReducer_pure (tasks : loc) (action : value) : M value :=
  do ty <- get_prop action "type";
  if strict_eq ty (VString "added") then
    do es <- array_elems tasks;
    do id <- get_prop action "id";
    do text <- get_prop action "text";
    do t <- alloc (new_item id text);
    alloc (Arr (es ++ [t]))
  else ret VUndefined.

(** *** The nested update, without Immer (principle 3) *)

(** The values that count as false in a condition. *)
Definition truthy (v : value) : bool :=
  match v with
  | VUndefined | VNull | VBool false | VNaN => false
  | VNumber z => negb (Z.eqb z 0)
  | VString s => negb (String.eqb s "")
  | _ => true
  end.

(** The UTF-16 code units of a string, each as a string of its own.
    The strings of the embedding are in UTF-8: a character of one to
    three bytes is one code unit, and a character of four bytes is two,
    its surrogates (each written as the three bytes of its number). *)
Definition continuation (c : Ascii.ascii) : bool :=
  let n := Ascii.N_of_ascii c in (128 <=? n)%N && (n <? 192)%N.

(** The characters of a string: a byte together with the continuation
    bytes that follow it.  [cur] is the character being read. *)
Fixpoint characters (cur : string) (s : string) : list string :=
  match s with
  | EmptyString =>
      match cur with EmptyString => [] | _ => [cur] end
  | String c s' =>
      if continuation c then characters (cur +:+ String c "") s'
      else
        match cur with
        | EmptyString => characters (String c "") s'
        | _ => cur :: characters (String c "") s'
        end
  end.

Definition surrogate (u : N) : string :=
  String (Ascii.ascii_of_N (224 + u / 4096))
    (String (Ascii.ascii_of_N (128 + u / 64 mod 64))
       (String (Ascii.ascii_of_N (128 + u mod 64)) "")).

Definition code_units (character : string) : list string :=
  match Ascii.N_of_ascii <$> String.list_ascii_of_string character with
  | [b0; b1; b2; b3] =>
      let cp := (b0 mod 8 * 262144 + b1 mod 64 * 4096 + b2 mod 64 * 64
                 + b3 mod 64 - 65536)%N in
      [surrogate (55296 + cp / 1024); surrogate (56320 + cp mod 1024)]
  | _ => [character]
  end.

Definition utf16 (s : string) : list string :=
  characters "" s ≫= code_units.

(** The properties that [...v] copies into an object literal: those of
    a plain object; the elements of an array, under their indices; the
    code units of a string, under their indices; nothing for the other
    primitives, [undefined] and [null] included. *)
Definition indexed {A} (f : A -> value) (l : list A) : gmap string value :=
  list_to_map (imap (fun i x => (pretty i, f x)) l).

Definition spread_props (v : value) : M (gmap string value) :=
  fun h =>
    (h, Return
          match v with
          | VRef l =>
              match h !! l with
              | Some (Obj props) => props
              | Some (Arr es) => indexed id es
              | None => ∅
              end
          | VString s => indexed VString (utf16 s)
          | _ => ∅
          end).

(**
<<
function userReducer(user, action) {
  if (action.type === "toggle_notifications") {
    return {
      ...user,
      profile: {
        ...user.profile,
        settings: {
          ...user.profile.settings,
          notifications: {
            ...user.profile.settings.notifications,
            sms: !user.profile.settings.notifications.sms,
          },
        },
      },
    };
  }
}
>>
    The literal is evaluated from left to right and from the outside
    in; each object is stored once all its properties are known. *)
Definition userReducer (user : value) (action : value) : M value :=
  do ty <- get_prop action "type";
  if strict_eq ty (VString "toggle_notifications") then
    do user_props <- spread_props user;
    do profile <- get_prop user "profile";
    do profile_props <- spread_props profile;
    do profile1 <- get_prop user "profile";
    do settings <- get_prop profile1 "settings";
    do settings_props <- spread_props settings;
    do profile2 <- get_prop user "profile";
    do settings2 <- get_prop profile2 "settings";
    do notifications <- get_prop settings2 "notifications";
    do notifications_props <- spread_props notifications;
    do profile3 <- get_prop user "profile";
    do settings3 <- get_prop profile3 "settings";
    do notifications3 <- get_prop settings3 "notifications";
    do sms <- get_prop notifications3 "sms";
    do n <- alloc (Obj (<["sms" := VBool (negb (truthy sms))]> notifications_props));
    do s <- alloc (Obj (<["notifications" := n]> settings_props));
    do p <- alloc (Obj (<["settings" := s]> profile_props));
    alloc (Obj (<["profile" := p]> user_props))
  else ret VUndefined.

(** [user] is an object whose [profile], the [settings] of that profile
    and the [notifications] of those settings are objects; [U], [P], [S]
    and [N] are the properties of the four objects and [p], [s], [n] the
    locations of the three nested ones. *)
Definition nested_user (h : heap) (user : value)
    (U P S N : gmap string value) (p s n : loc) : Prop :=
  ∃ u, user = VRef u ∧
       h !! u = Some (Obj U) ∧ U !! "profile" = Some (VRef p) ∧
       h !! p = Some (Obj P) ∧ P !! "settings" = Some (VRef s) ∧
       h !! s = Some (Obj S) ∧ S !! "notifications" = Some (VRef n) ∧
       h !! n = Some (Obj N).

(** A user with the three nested objects, and the action, to try the
    reducer on: the notification settings (0), the settings (1), the
    profile (2), the user (3) and the action (4). *)
Definition sample_N : gmap string value :=
  list_to_map [("sms", VBool true); ("email", VBool false)].
Definition sample_S : gmap string value :=
  list_to_map [("notifications", VRef 0); ("theme", VString "dark")].
Definition sample_P : gmap string value :=
  list_to_map [("settings", VRef 1); ("name", VString "Lin")].
Definition sample_U : gmap string value :=
  list_to_map [("profile", VRef 2); ("id", VNumber 7)].

Definition sample_user : heap :=
  [ Obj sample_N; Obj sample_S; Obj sample_P; Obj sample_U;
    obj [("type", VString "toggle_notifications")] ].

End PurityLesson.

(** ** More of the props lesson *)
Module PropsMore.
Import JSX.

(** [1_Getting_Started_Describing_The_UI/6_Props/README.md], section 6:
<<
function GenericButton(props) {
  return (
    <button className="generic-style" {...props}>
      {/* props.children will be rendered here */}
    </button>
  );
}
>>
    The attributes are merged from left to right, so a member of
    [props] replaces an attribute written before the spread.  The JSX
    has no child of its own (a comment is not one), so the children of
    the button are those in [props]; as in [node], they are kept apart
    from the other members of [props]. *)
Definition GenericButton (props : gmap string value) (children : list node)
  : node :=
  Element (Host "button")
          (props ∪ <["className" := VString "generic-style"]> ∅)
          children.

End PropsMore.

(** ** More of the lesson on conditional rendering and lists *)
Module RenderingMore.
Import JSX ConditionalRendering.

(** The fourth [Item] of the lesson, with the logic moved out of the
    JSX:
<<
function Item({ name, isPacked }) {
  let itemContent = name;
  if (isPacked) {
    itemContent = name + " ✔";
  }
  return <li className="item">{itemContent}</li>;
}
>> *)
Definition Item_variable (name : string) (isPacked : bool) : node :=
  let itemContent := name in
  let itemContent := if isPacked then name +:+ " ✔" else itemContent in
  li [Expr (VString itemContent)].

Definition heading : node :=
  Element (Host "h1") ∅ [Text "You have messages!"].

(** [a && b] on a number [a]: [a] itself when it is 0, else [b]. *)
Definition number_and (a : Z) (b : node) : node :=
  if Z.eqb a 0 then Expr (VNumber a) else b.

(** [{messageCount && <h1>You have messages!</h1>}] *)
Definition messages_and (messageCount : Z) : node :=
  number_and messageCount heading.

(** [{messageCount > 0 && <h1>You have messages!</h1>}] *)
Definition messages_positive (messageCount : Z) : node :=
  if Z.ltb 0 messageCount then heading else Expr (VBool false).

(** The key that React gives an element written with [key={v}]: none
    when [v] is [undefined], and the string [v] converts to
    otherwise. *)
Definition key_of (v : value) : option string :=
  match v with
  | VUndefined => None
  | VNull => Some "null"
  | VBool true => Some "true"
  | VBool false => Some "false"
  | VNumber z => Some (Double.to_string z)
  | VString s => Some s
  | VObject _ => Some "[object Object]"
  end.

(** An element together with its key. *)
Record keyed := { key : option string; element : node }.

(** [array.map(f)] for an [f] that may throw. *)
Fixpoint map_outcome {A B} (f : A -> outcome B) (l : list A) : outcome (list B) :=
  match l with
  | [] => Return []
  | x :: l' =>
      match f x with
      | Throw e => Throw e
      | Return y =>
          match map_outcome f l' with
          | Throw e => Throw e
          | Return ys => Return (y :: ys)
          end
      end
  end.

(**
<<
function RecipeList({ recipes }) {
  return recipes.map(recipe => (
    <React.Fragment key={recipe.id}>
      <h2>{recipe.name}</h2>
      <p>{recipe.description}</p>
    </React.Fragment>
  ));
}
>>
    [recipes] is the array that the parent passes. *)
Definition recipe_fragment (recipe : value) : outcome keyed :=
  match get_field recipe "id" with
  | Throw e => Throw e
  | Return id =>
      match get_field recipe "name" with
      | Throw e => Throw e
      | Return name =>
          match get_field recipe "description" with
          | Throw e => Throw e
          | Return description =>
              Return {| key := key_of id;
                        element :=
                          Element Fragment ∅
                            [ Element (Host "h2") ∅ [Expr name];
                              Element (Host "p") ∅ [Expr description] ] |}
          end
      end
  end.

Definition RecipeList (recipes : list value) : outcome (list keyed) :=
  map_outcome recipe_fragment recipes.

(** Two recipes to try the list on. *)
Definition sample_recipes : list (gmap string value) :=
  [ list_to_map [("id", VNumber 1); ("name", VString "Soup");
                 ("description", VString "Warm")];
    list_to_map [("id", VNumber 2); ("name", VString "Salad");
                 ("description", VString "Fresh")] ].

End RenderingMore.

(** ** The lesson on resetting and preserving state

    [3_State_Management_Deep_Dive/6_Resetting_state_at_same_Position/README.md] *)
Module StateLessons.
Import JSX.

(** *** The address book *)

(** The id of the selected contact: a number or a string. *)
Inductive selected := IdNumber (z : Z) | IdString (s : string).

Definition selected_value (sel : selected) : value :=
  match sel with
  | IdNumber z => VNumber z
  | IdString s => VString s
  end.

(** [v === selectedId] *)
Definition is_selected (v : value) (sel : selected) : bool :=
  match v, sel with
  | VNumber a, IdNumber b => Z.eqb a b
  | VString a, IdString b => String.eqb a b
  | _, _ => false
  end.

(** [contacts.find((c) => c.id === selectedId)]: the first element that
    satisfies the test, [undefined] when there is none; the test throws
    on an element that is [undefined] or [null]. *)
Fixpoint find_contact (contacts : list value) (sel : selected) : outcome value :=
  match contacts with
  | [] => Return VUndefined
  | c :: contacts' =>
      match get_field c "id" with
      | Throw e => Throw e
      | Return id =>
          if is_selected id sel then Return c else find_contact contacts' sel
      end
  end.

(** The values that count as false in a condition. *)
Definition truthy (v : value) : bool :=
  match v with
  | VUndefined | VNull | VBool false => false
  | VNumber z => negb (Z.eqb z 0)
  | VString s => negb (String.eqb s "")
  | _ => true
  end.

(** The child of the [div]: the form element, with its key and its
    [contact] prop, or a plain value. *)
Inductive child :=
  | EditContactForm (key : option string) (contact : value)
  | Value (v : value).

(**
<<
function AddressBook({ contacts, selectedId }) {
  const contact = contacts.find((c) => c.id === selectedId);
  return (
    <div>
      {contact && (
        <EditContactForm key={contact.id} contact={contact} />
      )}
    </div>
  );
}
>>
    The result is the child of the [div]. *)
Definition AddressBook (contacts : list value) (selectedId : selected)
  : outcome child :=
  match find_contact contacts selectedId with
  | Throw e => Throw e
  | Return contact =>
      if truthy contact then
        match get_field contact "id" with
        | Throw e => Throw e
        | Return id => Return (EditContactForm (RenderingMore.key_of id) contact)
        end
      else Return (Value contact)
  end.

(** Three contacts to try the address book on. *)
Definition sample_contacts : list (gmap string value) :=
  [ list_to_map [("id", VNumber 0); ("name", VString "Taylor")];
    list_to_map [("id", VNumber 1); ("name", VString "Alice")];
    list_to_map [("id", VNumber 2); ("name", VString "Bob")] ].

(** *** Lifting the drafts up *)

(** The two state variables of [ChatApp]. *)
Record chat_state := { recipient : string; drafts : gmap string string }.

(** [useState("alice")] and [useState({ alice: "", bob: "" })] *)
Definition ChatApp_initial : chat_state :=
  {| recipient := "alice";
     drafts := <["alice" := ""]> (<["bob" := ""]> ∅) |}.

(** What can happen: a click on one of the two buttons, or the [Chat]
    calling [onDraftChange(newDraft)]. *)
Inductive chat_event :=
  | ClickAlice
  | ClickBob
  | DraftChange (newDraft : string).

(**
<<
<button onClick={() => setRecipient("alice")}>Chat with Alice</button>
<button onClick={() => setRecipient("bob")}>Chat with Bob</button>
...
onDraftChange={(newDraft) =>
  setDrafts((d) => ({ ...d, [recipient]: newDraft }))
}
>> *)
Definition ChatApp_handle (s : chat_state) (e : chat_event) : chat_state :=
  match e with
  | ClickAlice => {| recipient := "alice"; drafts := s.(drafts) |}
  | ClickBob => {| recipient := "bob"; drafts := s.(drafts) |}
  | DraftChange newDraft =>
      {| recipient := s.(recipient);
         drafts := <[s.(recipient) := newDraft]> s.(drafts) |}
  end.

Definition ChatApp_run (s : chat_state) (es : list chat_event) : chat_state :=
  fold_left ChatApp_handle es s.

(** [<Chat recipient={recipient} draft={drafts[recipient]} ... />]: the
    two props; a missing draft is [undefined] ([None]). *)
Definition Chat_props (s : chat_state) : string * option string :=
  (s.(recipient), s.(drafts) !! s.(recipient)).

(** *** Keeping the draft in [localStorage] *)

(** [`chat-draft-${recipient}`] *)
Definition draft_key (recipient : string) : string :=
  "chat-draft-" +:+ recipient.

(** The initial state of [Chat]:
<<
const [draft, setDraft] = useState(() => {
  const savedDraft = localStorage.getItem(`chat-draft-${recipient}`);
  return savedDraft || "";
});
>>
    [getItem] gives [null] for a key that is not stored. *)
Definition Chat_initial_draft (recipient : string)
    (localStorage : gmap string string) : string :=
  match localStorage !! draft_key recipient with
  | Some savedDraft => if String.eqb savedDraft "" then "" else savedDraft
  | None => ""
  end.

(** The effect of [Chat]:
<<
useEffect(() => {
  localStorage.setItem(`chat-draft-${recipient}`, draft);
}, [draft, recipient]);
>> *)
Definition Chat_save_effect (recipient draft : string)
    (localStorage : gmap string string) : gmap string string :=
  <[draft_key recipient := draft]> localStorage.

End StateLessons.

(** * Properties of the numbers *)
Module DoubleSpec.
Import Double.

(** Up to 2^53 nothing is rounded. *)
Lemma round_exact z : (Z.abs z <= two53)%Z -> round z = z.
Proof.
  intros Hz. unfold round.
  by destruct (Z.leb_spec (Z.abs z) two53); [|lia].
Qed.

Lemma add_exact a b : (Z.abs (a + b) <= two53)%Z -> add a b = (a + b)%Z.
Proof. apply round_exact. Qed.

Lemma to_string_exact z : (Z.abs z <= two53)%Z -> to_string z = pretty z.
Proof.
  intros Hz. unfold to_string.
  by destruct (Z.leb_spec (Z.abs z) two53); [|lia].
Qed.

(** Beyond 2^53 adding one changes nothing. *)
Example add_one_two53 : add two53 1 = two53.
Proof. vm_compute. reflexivity. Qed.

Example to_string_small : to_string 42 = "42" ∧ to_string (-7) = "-7".
Proof. split; vm_compute; reflexivity. Qed.

Example to_string_large :
  to_string (2 ^ 60) = "1152921504606847000" ∧
  to_string (10 ^ 21) = "1e+21" ∧
  to_string (- 2 ^ 80) = "-1.2089258196146292e+24".
Proof. repeat split; vm_compute; reflexivity. Qed.

End DoubleSpec.

(** * Properties of [tasksReducer] *)
Module ReducerSpec.
Import Reducer.

(** ** The primitives *)

(** Strict equality is equality, but for NaN. *)
Lemma strict_eq_true a b : strict_eq a b = true <-> a = b ∧ a ≠ VNaN.
Proof.
  destruct a, b; simpl;
    rewrite ?Bool.eqb_true_iff, ?Z.eqb_eq, ?String.eqb_eq, ?Nat.eqb_eq;
    (split; [intros E|intros [E ?]]); try split; congruence.
Qed.

Lemma strict_eq_eq a b : strict_eq a b = true -> a = b.
Proof. intros H. by apply strict_eq_true in H as [? _]. Qed.

Lemma strict_eq_neq a b : a ≠ b -> strict_eq a b = false.
Proof.
  intros Hne. destruct (strict_eq a b) eqn:E; [|done].
  by apply strict_eq_eq in E.
Qed.

Lemma strict_eq_refl a : a ≠ VNaN -> strict_eq a a = true.
Proof. intros H. by apply strict_eq_true. Qed.

Lemma strict_eq_same_id a b : strict_eq a b = bool_decide (same_id a b).
Proof.
  case_bool_decide as H.
  - by apply strict_eq_true.
  - destruct (strict_eq a b) eqn:E; [|done]. by apply strict_eq_true in E.
Qed.

(** A value strictly equal to another is strictly equal to itself. *)
Lemma strict_eq_self a b : strict_eq a b = true -> strict_eq b b = true.
Proof. intros [-> H]%strict_eq_true. by apply strict_eq_refl. Qed.

Lemma strict_eq_string a s : strict_eq a (VString s) = bool_decide (a = VString s).
Proof.
  case_bool_decide as H.
  - subst. by apply strict_eq_refl.
  - by apply strict_eq_neq.
Qed.

Lemma get_prop_read h v name :
  nullish v = false -> get_prop v name h = (h, Return (read h v name)).
Proof.
  destruct v; simpl; try done.
  intros _. destruct (h !! l) as [[props|es]|]; done.
Qed.

Lemma get_prop_nullish h v name :
  nullish v = true -> get_prop v name h = (h, Throw TypeError).
Proof. by destruct v. Qed.

Lemma is_object_not_nullish h v : is_object h v = true -> nullish v = false.
Proof. by destruct v. Qed.

(** A value with a defined property is an object, hence not nullish. *)
Lemma read_defined_object h v name :
  read h v name ≠ VUndefined -> is_object h v = true.
Proof.
  destruct v; simpl; try done.
  destruct (h !! l) as [[props|es]|]; done.
Qed.

Lemma read_type_not_nullish h action s :
  read h action "type" = VString s -> nullish action = false.
Proof.
  intros H. apply (is_object_not_nullish h), (read_defined_object _ _ "type").
  by rewrite H.
Qed.

(** Allocation only extends the store. *)
Lemma lookup_alloc_old (h k : heap) l o :
  h !! l = Some o -> (h ++ k) !! l = Some o.
Proof. intros H. by apply lookup_app_l_Some. Qed.

Lemma read_extend (h k : heap) v name :
  is_object h v = true -> read (h ++ k) v name = read h v name.
Proof.
  destruct v; simpl; try done.
  destruct (h !! l) as [[props|es]|] eqn:E; try done.
  intros _. by rewrite (lookup_alloc_old _ _ _ _ E).
Qed.

Lemma is_object_extend (h k : heap) v :
  is_object h v = true -> is_object (h ++ k) v = true.
Proof.
  destruct v; simpl; try done.
  destruct (h !! l) as [[props|es]|] eqn:E; try done.
  intros _. by rewrite (lookup_alloc_old _ _ _ _ E).
Qed.

Lemma filter_all {A} (P : A -> Prop) `{!∀ x, Decision (P x)} (l : list A) :
  (∀ x, x ∈ l -> P x) -> filter P l = l.
Proof.
  induction l as [|x l IH]; intros Hall; [done|].
  rewrite filter_cons_True by (apply Hall; left).
  f_equal. apply IH. intros y Hy. apply Hall. by right.
Qed.

(** ** Running a sequence of steps *)

Lemma bind_return {A B} (m : M A) (k : A -> M B) h h' a :
  m h = (h', Return a) -> bind m k h = k a h'.
Proof. unfold bind. by intros ->. Qed.

Lemma bind_throw {A B} (m : M A) (k : A -> M B) h h' e :
  m h = (h', Throw e) -> bind m k h = (h', Throw e).
Proof. unfold bind. by intros ->. Qed.

(** ** The two callbacks on a list of objects *)

Lemma changed_callback_object h action task t :
  is_object h t = true ->
  nullish action = false ->
  read h action "task" = task ->
  nullish task = false ->
  changed_callback action t h =
    (h, Return (if strict_eq (read h t "id") (read h task "id") then task else t)).
Proof.
  intros Ho Ha Ht Hn. unfold changed_callback.
  rewrite (bind_return _ _ _ _ _ (get_prop_read h t "id" (is_object_not_nullish _ _ Ho))).
  rewrite (bind_return _ _ _ _ _ (get_prop_read h action "task" Ha)), Ht.
  rewrite (bind_return _ _ _ _ _ (get_prop_read h task "id" Hn)).
  destruct (strict_eq _ _); [|done].
  by rewrite (get_prop_read h action "task" Ha), Ht.
Qed.

Lemma array_map_changed h action task es :
  forallb (is_object h) es = true ->
  nullish action = false ->
  read h action "task" = task ->
  nullish task = false ->
  array_map (changed_callback action) es h =
    (h, Return (map (fun t => if strict_eq (read h t "id") (read h task "id")
                              then task else t) es)).
Proof.
  intros Hes Ha Ht Hn. induction es as [|e es IH]; [done|].
  simpl in Hes. apply andb_true_iff in Hes as [He Hes]. simpl.
  rewrite (bind_return _ _ _ _ _ (changed_callback_object h action task e He Ha Ht Hn)).
  by rewrite (bind_return _ _ _ _ _ (IH Hes)).
Qed.

Lemma deleted_callback_object h action i t :
  is_object h t = true ->
  nullish action = false ->
  read h action "id" = i ->
  deleted_callback action t h =
    (h, Return (bool_decide (¬ same_id (read h t "id") i))).
Proof.
  intros Ho Ha Hi. unfold deleted_callback.
  rewrite (bind_return _ _ _ _ _ (get_prop_read h t "id" (is_object_not_nullish _ _ Ho))).
  rewrite (bind_return _ _ _ _ _ (get_prop_read h action "id" Ha)), Hi.
  unfold ret. rewrite strict_eq_same_id.
  do 2 f_equal. by repeat case_bool_decide.
Qed.

Lemma array_filter_deleted h action i es :
  forallb (is_object h) es = true ->
  nullish action = false ->
  read h action "id" = i ->
  array_filter (deleted_callback action) es h =
    (h, Return (filter (fun t => ¬ same_id (read h t "id") i) es)).
Proof.
  intros Hes Ha Hi. induction es as [|e es IH]; [done|].
  simpl in Hes. apply andb_true_iff in Hes as [He Hes]. simpl.
  rewrite (bind_return _ _ _ _ _ (deleted_callback_object h action i e He Ha Hi)).
  rewrite (bind_return _ _ _ _ _ (IH Hes)).
  unfold ret. rewrite filter_cons. by case_bool_decide; case_decide.
Qed.

Lemma array_elems_array h tasks es :
  h !! tasks = Some (Arr es) -> array_elems tasks h = (h, Return es).
Proof. unfold array_elems. by intros ->. Qed.

(** ** The reducer, branch by branch *)

Lemma run_added h tasks es action :
  h !! tasks = Some (Arr es) ->
  read h action "type" = VString "added" ->
  tasksReducer tasks action h =
    (h ++ [new_task (read h action "id") (read h action "text");
           Arr (es ++ [VRef (length h)])],
     Return (VRef (S (length h)))).
Proof.
  intros Harr Hty.
  pose proof (read_type_not_nullish _ _ _ Hty) as Ha.
  unfold tasksReducer.
  rewrite (bind_return _ _ _ _ _ (get_prop_read h action "type" Ha)), Hty.
  cbn [strict_eq]. change (String.eqb "added" "added") with true. cbv iota.
  rewrite (bind_return _ _ _ _ _ (array_elems_array h tasks es Harr)).
  rewrite (bind_return _ _ _ _ _ (get_prop_read h action "id" Ha)).
  rewrite (bind_return _ _ _ _ _ (get_prop_read h action "text" Ha)).
  unfold bind, alloc. simpl. rewrite length_app. simpl.
  by rewrite Nat.add_1_r, <- app_assoc.
Qed.

Lemma run_changed h tasks es action task :
  tasks_list h tasks es ->
  read h action "type" = VString "changed" ->
  read h action "task" = task ->
  nullish task = false ->
  tasksReducer tasks action h =
    (h ++ [Arr (map (fun t => if strict_eq (read h t "id") (read h task "id")
                              then task else t) es)],
     Return (VRef (length h))).
Proof.
  intros [Harr Hes] Hty Htask Hn.
  pose proof (read_type_not_nullish _ _ _ Hty) as Ha.
  unfold tasksReducer.
  rewrite (bind_return _ _ _ _ _ (get_prop_read h action "type" Ha)), Hty.
  cbn [strict_eq]. change (String.eqb "changed" "added") with false.
  change (String.eqb "changed" "changed") with true. cbv iota.
  rewrite (bind_return _ _ _ _ _ (array_elems_array h tasks es Harr)).
  by rewrite (bind_return _ _ _ _ _ (array_map_changed h action task es Hes Ha Htask Hn)).
Qed.

Lemma run_deleted h tasks es action i :
  tasks_list h tasks es ->
  read h action "type" = VString "deleted" ->
  read h action "id" = i ->
  tasksReducer tasks action h =
    (h ++ [Arr (filter (fun t => ¬ same_id (read h t "id") i) es)],
     Return (VRef (length h))).
Proof.
  intros [Harr Hes] Hty Hi.
  pose proof (read_type_not_nullish _ _ _ Hty) as Ha.
  unfold tasksReducer.
  rewrite (bind_return _ _ _ _ _ (get_prop_read h action "type" Ha)), Hty.
  cbn [strict_eq]. change (String.eqb "deleted" "added") with false.
  change (String.eqb "deleted" "changed") with false.
  change (String.eqb "deleted" "deleted") with true. cbv iota.
  rewrite (bind_return _ _ _ _ _ (array_elems_array h tasks es Harr)).
  by rewrite (bind_return _ _ _ _ _ (array_filter_deleted h action i es Hes Ha Hi)).
Qed.

Lemma to_string_run h v :
  to_string v h = (h, match string_of h v with
                      | Some s => Return s
                      | None => Throw TypeError
                      end).
Proof. done. Qed.

Lemma run_unknown h tasks action :
  nullish action = false ->
  ¬ known_type (read h action "type") ->
  tasksReducer tasks action h =
    (h, Throw match string_of h (read h action "type") with
              | Some s => Error ("Unknown action: " +:+ s)
              | None => TypeError
              end).
Proof.
  intros Ha Hty. unfold known_type in Hty.
  unfold tasksReducer.
  rewrite (bind_return _ _ _ _ _ (get_prop_read h action "type" Ha)).
  rewrite !strict_eq_string.
  repeat (case_bool_decide; [tauto|]).
  rewrite (bind_return _ _ _ _ _ (get_prop_read h action "type" Ha)).
  unfold bind. rewrite to_string_run.
  by destruct (string_of h (read h action "type")).
Qed.

(** A ['changed'] action on the empty list never runs the callback. *)
Lemma run_changed_empty h tasks action :
  h !! tasks = Some (Arr []) ->
  read h action "type" = VString "changed" ->
  tasksReducer tasks action h = (h ++ [Arr []], Return (VRef (length h))).
Proof.
  intros Harr Hty.
  pose proof (read_type_not_nullish _ _ _ Hty) as Ha.
  unfold tasksReducer.
  rewrite (bind_return _ _ _ _ _ (get_prop_read h action "type" Ha)), Hty.
  cbn [strict_eq]. change (String.eqb "changed" "added") with false.
  change (String.eqb "changed" "changed") with true. cbv iota.
  by rewrite (bind_return _ _ _ _ _ (array_elems_array h tasks [] Harr)).
Qed.

(** A ['changed'] action without a task throws on the first element. *)
Lemma run_changed_no_task h tasks e es action :
  tasks_list h tasks (e :: es) ->
  read h action "type" = VString "changed" ->
  nullish (read h action "task") = true ->
  tasksReducer tasks action h = (h, Throw TypeError).
Proof.
  intros [Harr Hes] Hty Hn.
  pose proof (read_type_not_nullish _ _ _ Hty) as Ha.
  simpl in Hes. apply andb_true_iff in Hes as [He _].
  unfold tasksReducer.
  rewrite (bind_return _ _ _ _ _ (get_prop_read h action "type" Ha)), Hty.
  cbn [strict_eq]. change (String.eqb "changed" "added") with false.
  change (String.eqb "changed" "changed") with true. cbv iota.
  rewrite (bind_return _ _ _ _ _ (array_elems_array h tasks _ Harr)).
  assert (changed_callback action e h = (h, Throw TypeError)) as Hcb.
  { unfold changed_callback.
    rewrite (bind_return _ _ _ _ _
               (get_prop_read h e "id" (is_object_not_nullish _ _ He))).
    rewrite (bind_return _ _ _ _ _ (get_prop_read h action "task" Ha)).
    by rewrite (bind_throw _ _ _ _ _ (get_prop_nullish h _ "id" Hn)). }
  cbn [array_map].
  by rewrite (bind_throw _ _ _ _ _ (bind_throw _ _ _ _ _ Hcb)).
Qed.

Lemma lookup_new (h : list object) o k : (h ++ o :: k) !! length h = Some o.
Proof. by rewrite lookup_app_r, Nat.sub_diag by lia. Qed.

(** ** The three handled actions *)

(** C3: for a tasks array with elements [es] and an action of type
    ['added'] with id [i] and text [t], the reducer returns a new array
    whose elements are those of the input, in order, followed by one
    reference to a new object [{id: i, text: t, done: false}]; every
    object that existed before the call is unchanged. *)
Theorem tasksReducer_added h tasks es action i t :
  h !! tasks = Some (Arr es) ->
  read h action "type" = VString "added" ->
  read h action "id" = i ->
  read h action "text" = t ->
  ∃ h' r n,
    tasksReducer tasks action h = (h', Return (VRef r)) ∧
    h' !! r = Some (Arr (es ++ [VRef n])) ∧
    h !! n = None ∧
    h' !! n = Some (Obj (<["id" := i]> (<["text" := t]> (<["done" := VBool false]> ∅)))) ∧
    ∀ l o, h !! l = Some o -> h' !! l = Some o.
Proof.
  intros Harr Hty <- <-.
  eexists _, _, (length h). split; [by apply (run_added h tasks es)|].
  split; [|split; [|split]].
  - change (h ++ [?a; ?b]) with (h ++ [a] ++ [b]).
    rewrite app_assoc. replace (S (length h)) with (length (h ++ [new_task (read h action "id") (read h action "text")])).
    + apply lookup_new.
    + rewrite length_app. simpl. lia.
  - by apply lookup_ge_None_2.
  - apply lookup_new.
  - intros l o Hl. by apply lookup_alloc_old.
Qed.

(** C4: for a tasks list with elements [es] and an action of type
    ['changed'] carrying a task (any value but [undefined] and [null]),
    the reducer returns a new array of the same length in which, at each
    index, an element whose id equals the id of [action.task] (equal in
    the sense of [===]: the same id, and not NaN) is replaced by
    [action.task] and any other element is the input element; every
    object that existed before the call is unchanged. *)
Theorem tasksReducer_changed h tasks es action task :
  tasks_list h tasks es ->
  read h action "type" = VString "changed" ->
  read h action "task" = task ->
  nullish task = false ->
  ∃ h' r es',
    tasksReducer tasks action h = (h', Return (VRef r)) ∧
    h' !! r = Some (Arr es') ∧
    length es' = length es ∧
    (∀ k t, es !! k = Some t ->
       es' !! k = Some (if decide (same_id (read h t "id") (read h task "id"))
                        then task else t)) ∧
    ∀ l o, h !! l = Some o -> h' !! l = Some o.
Proof.
  intros Hl Hty Htask Hn.
  eexists _, _, _. split; [by apply (run_changed h tasks es action task)|].
  split; [apply lookup_new|]. split; [apply length_map|]. split.
  - intros k t Hk. rewrite list_lookup_fmap, Hk. simpl.
    rewrite strict_eq_same_id. by case_bool_decide; case_decide.
  - intros l o H. by apply lookup_alloc_old.
Qed.

(** C5: for a tasks list with elements [es] and an action of type
    ['deleted'] with id [i], the reducer returns a new array holding
    exactly the elements of the input whose id differs from [i] (in the
    sense of [!==]: it is not the same id), in their original order;
    when no element has id [i] these are all the elements of the
    input. *)
Theorem tasksReducer_deleted h tasks es action i :
  tasks_list h tasks es ->
  read h action "type" = VString "deleted" ->
  read h action "id" = i ->
  ∃ h' r es',
    tasksReducer tasks action h = (h', Return (VRef r)) ∧
    h' !! r = Some (Arr es') ∧
    es' = filter (fun t => ¬ same_id (read h t "id") i) es ∧
    (Forall (fun t => ¬ same_id (read h t "id") i) es -> es' = es) ∧
    ∀ l o, h !! l = Some o -> h' !! l = Some o.
Proof.
  intros Hl Hty Hi.
  eexists _, _, _. split; [by apply (run_deleted h tasks es action i)|].
  split; [apply lookup_new|]. split; [done|]. split.
  - intros Hall. apply filter_all. by apply Forall_forall.
  - intros l o H. by apply lookup_alloc_old.
Qed.

(** ** Which calls return *)

(** C1, as amended: for a tasks list and an action object, the reducer
    returns iff the type of the action is one of ['added'], ['changed']
    and ['deleted'] and, when it is ['changed'] and the list is not
    empty, the action carries a task (neither [undefined] nor [null]);
    a ['changed'] action without one throws a TypeError on a list that
    is not empty.  For any other type the reducer throws, and leaves
    the store as it was: an [Error] whose message is ['Unknown action: ']
    followed by the type converted to a string (by the type itself when
    it is a string), or a TypeError when the type is an object that
    cannot be converted to a string. *)
Theorem tasksReducer_returns_iff_known_type h tasks es action :
  tasks_list h tasks es ->
  is_object h action = true ->
  (returns_normally h tasks action <->
     known_type (read h action "type") ∧
     (read h action "type" = VString "changed" -> es ≠ [] ->
      nullish (read h action "task") = false)) ∧
  (read h action "type" = VString "changed" -> es ≠ [] ->
   nullish (read h action "task") = true ->
   tasksReducer tasks action h = (h, Throw TypeError)) ∧
  (¬ known_type (read h action "type") ->
   (∀ s, string_of h (read h action "type") = Some s ->
      tasksReducer tasks action h =
        (h, Throw (Error ("Unknown action: " +:+ s)))) ∧
   (string_of h (read h action "type") = None ->
      tasksReducer tasks action h = (h, Throw TypeError)) ∧
   (∀ s, read h action "type" = VString s ->
      tasksReducer tasks action h =
        (h, Throw (Error ("Unknown action: " +:+ s))))).
Proof.
  intros Hl Hobj.
  pose proof (is_object_not_nullish _ _ Hobj) as Ha.
  assert (Hnotask : read h action "type" = VString "changed" -> es ≠ [] ->
            nullish (read h action "task") = true ->
            tasksReducer tasks action h = (h, Throw TypeError)).
  { intros Hty Hne Hn. destruct es as [|e es]; [done|].
    by apply (run_changed_no_task h tasks e es). }
  split; [|split; [exact Hnotask|]].
  - split.
    + intros (h' & r & Hrun). split.
      * destruct (decide (read h action "type" = VString "added")) as [|N1];
          [by left|].
        destruct (decide (read h action "type" = VString "changed")) as [|N2];
          [by right; left|].
        destruct (decide (read h action "type" = VString "deleted")) as [|N3];
          [by right; right|].
        rewrite run_unknown in Hrun; [done|done|].
        unfold known_type. tauto.
      * intros Hty Hne.
        apply not_true_is_false. intros Hn.
        by rewrite (Hnotask Hty Hne Hn) in Hrun.
    + intros [[Hty|[Hty|Hty]] Htask].
      * eexists _, _. apply (run_added h tasks es); [apply Hl|done].
      * destruct es as [|e es].
        -- eexists _, _. apply run_changed_empty; [apply Hl|done].
        -- eexists _, _.
           by apply (run_changed h tasks _ action _ Hl Hty eq_refl), Htask.
      * eexists _, _. by apply (run_deleted h tasks es action _ Hl Hty eq_refl).
  - intros Hty. pose proof (run_unknown h tasks action Ha Hty) as Hrun.
    split; [|split].
    + intros s Hs. by rewrite Hs in Hrun.
    + intros Hs. by rewrite Hs in Hrun.
    + intros s Hs. by rewrite Hs in Hrun.
Qed.

(** ** The reducer only allocates *)

Lemma is_read_bind {A B} (m : M A) (k : A -> M B) :
  is_read m -> (∀ a, is_read (k a)) -> is_read (bind m k).
Proof.
  intros Hm Hk h. unfold bind. specialize (Hm h).
  destruct (m h) as [h1 [a|e]]; simpl in *; subst; [apply Hk|done].
Qed.

Lemma is_read_get_prop v name : is_read (get_prop v name).
Proof.
  intros h. destruct v; simpl; try done.
  by destruct (h !! l) as [[?|?]|].
Qed.

Lemma is_read_array_elems tasks : is_read (array_elems tasks).
Proof. intros h. unfold array_elems. by destruct (h !! tasks) as [[?|?]|]. Qed.

Lemma is_read_changed_callback action t : is_read (changed_callback action t).
Proof.
  unfold changed_callback.
  repeat (apply is_read_bind; [apply is_read_get_prop|intros ?]).
  destruct (strict_eq _ _); [apply is_read_get_prop|done].
Qed.

Lemma is_read_deleted_callback action t : is_read (deleted_callback action t).
Proof.
  unfold deleted_callback.
  by repeat (apply is_read_bind; [apply is_read_get_prop|intros ?]).
Qed.

Lemma is_read_array_map f es :
  (∀ e, is_read (f e)) -> is_read (array_map f es).
Proof.
  intros Hf. induction es as [|e es IH]; [done|]. simpl.
  apply is_read_bind; [apply Hf|intros x].
  by apply is_read_bind; [apply IH|intros xs].
Qed.

Lemma is_read_array_filter p es :
  (∀ e, is_read (p e)) -> is_read (array_filter p es).
Proof.
  intros Hp. induction es as [|e es IH]; [done|]. simpl.
  apply is_read_bind; [apply Hp|intros x].
  by apply is_read_bind; [apply IH|intros xs].
Qed.

(** Binding a read: either it returns and the rest runs in the same
    store, or it throws and so does the whole. *)
Lemma bind_read_cases {A B} (m : M A) (k : A -> M B) h :
  is_read m ->
  (∃ a, m h = (h, Return a) ∧ bind m k h = k a h) ∨
  (∃ e, m h = (h, Throw e) ∧ bind m k h = (h, Throw e)).
Proof.
  intros Hm. specialize (Hm h). unfold bind.
  destruct (m h) as [h1 [a|e]]; simpl in Hm; subst; eauto.
Qed.

Lemma array_elems_return h tasks es :
  array_elems tasks h = (h, Return es) -> h !! tasks = Some (Arr es).
Proof.
  unfold array_elems. destruct (h !! tasks) as [[?|?]|]; congruence.
Qed.

Tactic Notation "read_step" constr(Hread) "as" ident(a) :=
  match goal with
  | |- context [bind ?m ?k ?h] =>
      let E := fresh "E" a in
      destruct (bind_read_cases m k h Hread) as [(a & E & ->)|(? & _ & ->)];
      [|left; eauto]
  end.

Lemma tasksReducer_shape h tasks action :
  call_shape h tasks (tasksReducer tasks action h).
Proof.
  unfold tasksReducer.
  read_step (is_read_get_prop action "type") as ty.
  destruct (strict_eq ty (VString "added")).
  { read_step (is_read_array_elems tasks) as es.
    read_step (is_read_get_prop action "id") as i.
    read_step (is_read_get_prop action "text") as t.
    right. exists [new_task i t], (es ++ [VRef (length h)]).
    split; [|by erewrite array_elems_return].
    unfold bind, alloc. by rewrite <- app_assoc. }
  destruct (strict_eq ty (VString "changed")).
  { read_step (is_read_array_elems tasks) as es.
    read_step (is_read_array_map _ es (is_read_changed_callback action)) as es'.
    right. exists [], es'.
    split; [|by erewrite array_elems_return].
    unfold alloc. by rewrite app_nil_r. }
  destruct (strict_eq ty (VString "deleted")).
  { read_step (is_read_array_elems tasks) as es.
    read_step (is_read_array_filter _ es (is_read_deleted_callback action)) as es'.
    right. exists [], es'.
    split; [|by erewrite array_elems_return].
    unfold alloc. by rewrite app_nil_r. }
  read_step (is_read_get_prop action "type") as ty'.
  left. unfold bind, to_string, throw. destruct (string_of h ty'); eauto.
Qed.

(** C6: whatever the store, the array reference and the action, a call
    changes no object that existed before it, whether it returns or
    throws (so the input array, its elements and the action are as they
    were); and when it returns, the result is a reference to an array
    that did not exist before the call, distinct from the input. *)
Theorem tasksReducer_no_mutation h tasks action :
  (∀ l o, h !! l = Some o -> (tasksReducer tasks action h).1 !! l = Some o) ∧
  (∀ r, (tasksReducer tasks action h).2 = Return r ->
        ∃ n es, r = VRef n ∧ n ≠ tasks ∧ h !! n = None ∧
                (tasksReducer tasks action h).1 !! n = Some (Arr es)).
Proof.
  destruct (tasksReducer_shape h tasks action)
    as [(e & ->)|(k & es & -> & Htasks)]; simpl.
  - split; [done|]. intros r [=].
  - split.
    + intros l o Hl. by apply lookup_alloc_old.
    + intros r [= <-]. exists (length (h ++ k)), es.
      apply lookup_lt_is_Some in Htasks.
      split; [done|]. rewrite length_app.
      split; [lia|]. split; [apply lookup_ge_None_2; lia|].
      rewrite app_assoc, <- length_app. apply lookup_new.
Qed.

(** ** Adding, then deleting *)

Lemma forallb_is_object_extend (h k : list object) es :
  forallb (is_object h) es = true -> forallb (is_object (h ++ k)) es = true.
Proof.
  induction es as [|e es IH]; [done|]. simpl.
  rewrite !andb_true_iff. intros [He Hes].
  split; [by apply is_object_extend|by apply IH].
Qed.

Lemma forallb_is_object_elem h es e :
  forallb (is_object h) es = true -> e ∈ es -> is_object h e = true.
Proof.
  induction es as [|e' es IH]; [by intros _ ?%elem_of_nil|]. simpl.
  rewrite andb_true_iff. intros [He Hes] [->|Hin]%elem_of_cons; auto.
Qed.

(** C9, as amended: for a tasks list with elements [es] none of which
    has id [i], and an id [i] other than NaN, the call with an action
    [{type: 'added', id: i, text: t}] returns an array on which the call
    with an action [{type: 'deleted', id: i}] (made in the resulting
    store, possibly after further allocations [hx]) returns an array
    with the elements [es] of the original list. *)
Theorem added_then_deleted_roundtrip h tasks es add i t :
  tasks_list h tasks es ->
  Forall (fun e => read h e "id" ≠ i) es ->
  i ≠ VNaN ->
  read h add "type" = VString "added" ->
  read h add "id" = i ->
  read h add "text" = t ->
  ∃ h1 r1,
    tasksReducer tasks add h = (h1, Return (VRef r1)) ∧
    ∀ hx del,
      read (h1 ++ hx) del "type" = VString "deleted" ->
      read (h1 ++ hx) del "id" = i ->
      ∃ h2 r2,
        tasksReducer r1 del (h1 ++ hx) = (h2, Return (VRef r2)) ∧
        h2 !! r2 = Some (Arr es).
Proof.
  intros [Harr Hes] Hfresh Hnan Hty <- <-.
  set (i := read h add "id") in *. set (t := read h add "text").
  eexists _, _. split; [by apply (run_added h tasks es)|].
  fold i t. intros hx del Hdty Hdi.
  set (h1 := h ++ [new_task i t; Arr (es ++ [VRef (length h)])]) in *.
  assert (Hnew : (h1 ++ hx) !! length h = Some (new_task i t)).
  { unfold h1. rewrite <- app_assoc. apply lookup_new. }
  assert (Hl : tasks_list (h1 ++ hx) (S (length h)) (es ++ [VRef (length h)])).
  { split.
    - apply lookup_alloc_old. unfold h1.
      change (h ++ [?a; ?b]) with (h ++ [a] ++ [b]). rewrite app_assoc.
      replace (S (length h)) with (length (h ++ [new_task i t]))
        by (rewrite length_app; simpl; lia).
      apply lookup_new.
    - rewrite forallb_app. apply andb_true_iff. split.
      + unfold h1. rewrite <- app_assoc. by apply forallb_is_object_extend.
      + simpl. by rewrite Hnew. }
  eexists _, _. split; [by apply (run_deleted _ _ _ del i Hl)|].
  rewrite lookup_new. do 2 f_equal.
  rewrite filter_app, filter_all.
  - rewrite filter_cons_False, filter_nil; [by rewrite app_nil_r|].
    intros Hne. apply Hne.
    assert (read (h1 ++ hx) (VRef (length h)) "id" = i) as ->; [|done].
    simpl. rewrite Hnew. simpl. by rewrite lookup_insert_eq.
  - intros e He [Heq _]. revert Heq. unfold h1. rewrite <- app_assoc.
    rewrite read_extend by eauto using forallb_is_object_elem.
    by apply (proj1 (Forall_forall _ _) Hfresh).
Qed.

(** ** String conversion reads only what the value reaches *)

Lemma map_ext_elem {A B} (f g : A -> B) (l : list A) :
  (∀ x, x ∈ l -> f x = g x) -> map f l = map g l.
Proof.
  intros H. apply map_ext_in. intros x Hx. apply H. by apply list_elem_of_In.
Qed.

Lemma mapM_ext_elem {A B} (f g : A -> option B) (l : list A) :
  (∀ x, x ∈ l -> f x = g x) -> mapM f l = mapM g l.
Proof.
  induction l as [|x l IH]; intros H; [done|]. simpl.
  rewrite (H x) by left. rewrite IH; [done|].
  intros y Hy. apply H. by right.
Qed.

Lemma to_string_aux_agree h1 h2 fuel stack v :
  (∀ l, reach h1 v l -> h2 !! l = h1 !! l) ->
  to_string_aux fuel h1 stack v = to_string_aux fuel h2 stack v.
Proof.
  revert stack v. induction fuel as [|n IH]; intros stack v Hv;
    destruct v as [| |b|z| |s|l]; try done; simpl;
    rewrite (Hv l (reach_here _ _)); [done|].
  destruct (h1 !! l) as [[props|es]|] eqn:El; try done.
  destruct (bool_decide (l ∈ stack)); [done|]. f_equal.
  apply mapM_ext_elem. intros e He.
  destruct e as [| |b|z| |s|l']; try done; apply IH; intros l'' Hr;
    apply Hv; by apply (reach_elem h1 l es _ l'' El He).
Qed.

(** A stack of distinct allocated locations is no longer than the store. *)
Lemma stack_bound (h : list object) (stack : list nat) :
  NoDup stack -> (∀ l, l ∈ stack -> l < length h) -> length stack ≤ length h.
Proof.
  intros Hnd Hlt.
  assert (stack ⊆+ seq 0 (length h)) as Hsub.
  { apply NoDup_submseteq; [done|].
    intros x Hx. apply elem_of_seq. specialize (Hlt x Hx). lia. }
  apply submseteq_length in Hsub. by rewrite length_seq in Hsub.
Qed.

(** With enough fuel for the locations not yet on the stack, more fuel
    changes nothing. *)
Lemma to_string_aux_fuel h fuel fuel' stack v :
  NoDup stack -> (∀ l, l ∈ stack -> l < length h) ->
  length h < fuel + length stack -> fuel ≤ fuel' ->
  to_string_aux fuel h stack v = to_string_aux fuel' h stack v.
Proof.
  revert fuel' stack v. induction fuel as [|n IH]; intros fuel' stack v Hnd Hlt Hf Hle.
  { pose proof (stack_bound h stack Hnd Hlt). simpl in Hf. lia. }
  destruct fuel' as [|n']; [lia|].
  destruct v as [| |b|z| |s|l]; try done; simpl.
  destruct (h !! l) as [[props|es]|] eqn:El; try done.
  case_bool_decide as Hin; [done|]. f_equal.
  apply mapM_ext_elem. intros e He.
  assert (∀ x, to_string_aux n h (l :: stack) x = to_string_aux n' h (l :: stack) x)
    as Hrec.
  { intros x. apply IH.
    - by constructor.
    - intros l' [->|Hl']%elem_of_cons; [|by apply Hlt].
      by apply lookup_lt_Some in El.
    - simpl. lia.
    - lia. }
  destruct e; try done; apply Hrec.
Qed.

Lemma string_of_agree h1 h2 v :
  (∀ l, reach h1 v l -> h2 !! l = h1 !! l) ->
  string_of h1 v = string_of h2 v.
Proof.
  intros Hv. unfold string_of.
  set (F := S (Nat.max (length h1) (length h2))).
  rewrite (to_string_aux_fuel h1 _ F [] v), (to_string_aux_fuel h2 _ F [] v);
    try (by constructor); try (by intros ? ?%elem_of_nil); try (simpl; lia);
    try (unfold F; lia).
  by apply to_string_aux_agree.
Qed.

(** ** Two runs on the same arguments *)

Lemma read_agree_cases {A} (m : M A) h1 h2 :
  is_read m -> (m h1).2 = (m h2).2 ->
  (∃ a, m h1 = (h1, Return a) ∧ m h2 = (h2, Return a)) ∨
  (∃ e, m h1 = (h1, Throw e) ∧ m h2 = (h2, Throw e)).
Proof.
  intros Hm Heq. pose proof (Hm h1) as E1. pose proof (Hm h2) as E2.
  destruct (m h1) as [h1' o1], (m h2) as [h2' o2]. simpl in *. subst.
  destruct o2; eauto.
Qed.

Lemma get_prop_agree h1 h2 v name :
  (∀ l, v = VRef l -> h2 !! l = h1 !! l) ->
  (get_prop v name h1).2 = (get_prop v name h2).2.
Proof.
  intros Hv. destruct v as [| |b|z| |s|l]; try done. simpl.
  rewrite (Hv l eq_refl). by destruct (h1 !! l) as [[?|?]|].
Qed.

Lemma array_elems_agree h1 h2 tasks :
  h2 !! tasks = h1 !! tasks ->
  (array_elems tasks h1).2 = (array_elems tasks h2).2.
Proof.
  intros Ht. unfold array_elems. rewrite Ht.
  by destruct (h1 !! tasks) as [[?|?]|].
Qed.

(** What a property read returns is reached from the value read. *)
Lemma get_prop_reach h h' v name x l :
  get_prop v name h = (h', Return x) -> reach h x l -> reach h v l.
Proof.
  destruct v as [| |b|z| |s|l0]; simpl; try (intros [= <- <-]; by inversion 1).
  destruct (h !! l0) as [[props|es]|] eqn:El;
    try (intros [= <- <-]; by inversion 1).
  destruct (props !! name) as [y|] eqn:Ep; simpl;
    intros [= <- <-]; [|by inversion 1].
  intros Hr. by apply (reach_prop h l0 props name y l).
Qed.

Tactic Notation "agree_step" constr(Hread) constr(Hagree) "as" ident(a) :=
  match goal with
  | |- context [bind ?m ?k ?h1] =>
      match goal with
      | |- context [bind m ?k' ?h2] =>
          assert_fails (constr_eq h1 h2);
          let E1 := fresh "E" a in
          let E2 := fresh "E" a in
          destruct (read_agree_cases m h1 h2 Hread Hagree)
            as [(a & E1 & E2)|(? & E1 & E2)];
          [rewrite (bind_return m k h1 _ _ E1), (bind_return m k' h2 _ _ E2)
          |rewrite (bind_throw m k h1 _ _ E1), (bind_throw m k' h2 _ _ E2);
           try reflexivity]
      end
  end.

Lemma changed_callback_agree h1 h2 action t :
  (∀ l, t = VRef l -> h2 !! l = h1 !! l) ->
  (∀ l, reach h1 action l -> h2 !! l = h1 !! l) ->
  (changed_callback action t h1).2 = (changed_callback action t h2).2.
Proof.
  intros Ht Ha. unfold changed_callback.
  assert (Hact : ∀ l, action = VRef l -> h2 !! l = h1 !! l).
  { intros l ->. apply Ha, reach_here. }
  agree_step (is_read_get_prop t "id") (get_prop_agree h1 h2 t "id" Ht) as tid.
  agree_step (is_read_get_prop action "task")
             (get_prop_agree h1 h2 action "task" Hact) as task.
  assert (Htask : ∀ l, task = VRef l -> h2 !! l = h1 !! l).
  { intros l ->. eapply Ha, get_prop_reach; [done|apply reach_here]. }
  agree_step (is_read_get_prop task "id")
             (get_prop_agree h1 h2 task "id" Htask) as aid.
  destruct (strict_eq _ _); [|done].
  by apply get_prop_agree.
Qed.

Lemma deleted_callback_agree h1 h2 action t :
  (∀ l, t = VRef l -> h2 !! l = h1 !! l) ->
  (∀ l, reach h1 action l -> h2 !! l = h1 !! l) ->
  (deleted_callback action t h1).2 = (deleted_callback action t h2).2.
Proof.
  intros Ht Ha. unfold deleted_callback.
  assert (Hact : ∀ l, action = VRef l -> h2 !! l = h1 !! l).
  { intros l ->. apply Ha, reach_here. }
  agree_step (is_read_get_prop t "id") (get_prop_agree h1 h2 t "id" Ht) as tid.
  agree_step (is_read_get_prop action "id")
             (get_prop_agree h1 h2 action "id" Hact) as aid.
  done.
Qed.

Lemma array_map_agree h1 h2 f es :
  (∀ e, is_read (f e)) ->
  (∀ e, e ∈ es -> (f e h1).2 = (f e h2).2) ->
  (array_map f es h1).2 = (array_map f es h2).2.
Proof.
  intros Hf. induction es as [|e es IH]; intros Hes; [done|]. simpl.
  agree_step (Hf e) (Hes e (list_elem_of_here _ _)) as y.
  agree_step (is_read_array_map f es Hf)
             (IH (fun e' He' => Hes e' (list_elem_of_further _ _ _ He'))) as ys.
  done.
Qed.

Lemma array_filter_agree h1 h2 p es :
  (∀ e, is_read (p e)) ->
  (∀ e, e ∈ es -> (p e h1).2 = (p e h2).2) ->
  (array_filter p es h1).2 = (array_filter p es h2).2.
Proof.
  intros Hp. induction es as [|e es IH]; intros Hes; [done|]. simpl.
  agree_step (Hp e) (Hes e (list_elem_of_here _ _)) as keep.
  agree_step (is_read_array_filter p es Hp)
             (IH (fun e' He' => Hes e' (list_elem_of_further _ _ _ He'))) as ys.
  done.
Qed.

(** Where the elements of a returned array come from. *)

Lemma bind_read_inv {A B} (m : M A) (k : A -> M B) h h' b :
  is_read m -> bind m k h = (h', Return b) ->
  ∃ a, m h = (h, Return a) ∧ k a h = (h', Return b).
Proof.
  intros Hm. destruct (bind_read_cases m k h Hm) as [(a & E & ->)|(e & E & ->)];
    [eauto|done].
Qed.

Lemma changed_callback_result h h' action t x :
  changed_callback action t h = (h', Return x) ->
  x = t ∨ (∀ l, reach h x l -> reach h action l).
Proof.
  unfold changed_callback. intros Hrun.
  apply bind_read_inv in Hrun as (tid & _ & Hrun); [|apply is_read_get_prop].
  apply bind_read_inv in Hrun as (task & _ & Hrun); [|apply is_read_get_prop].
  apply bind_read_inv in Hrun as (aid & _ & Hrun); [|apply is_read_get_prop].
  destruct (strict_eq tid aid).
  - right. intros l. by apply get_prop_reach with (1 := Hrun).
  - left. by injection Hrun.
Qed.

Lemma array_map_changed_result h h' action es es' :
  array_map (changed_callback action) es h = (h', Return es') ->
  ∀ x, x ∈ es' -> x ∈ es ∨ (∀ l, reach h x l -> reach h action l).
Proof.
  revert h' es'. induction es as [|e es IH]; intros h' es'; simpl.
  { intros [= <- <-] x ?%elem_of_nil. done. }
  intros Hrun.
  apply bind_read_inv in Hrun as (y & Hy & Hrun);
    [|apply is_read_changed_callback].
  apply bind_read_inv in Hrun as (ys & Hys & Hrun);
    [|apply is_read_array_map, is_read_changed_callback].
  injection Hrun as <- <-.
  intros x [->|Hx]%elem_of_cons.
  - destruct (changed_callback_result _ _ _ _ _ Hy) as [->|Hr];
      [left; left|by right].
  - destruct (IH _ _ Hys x Hx) as [Hin|Hr]; [left; by right|by right].
Qed.

Lemma array_filter_result h h' p es es' :
  (∀ e, is_read (p e)) ->
  array_filter p es h = (h', Return es') -> ∀ x, x ∈ es' -> x ∈ es.
Proof.
  intros Hp. revert h' es'. induction es as [|e es IH]; intros h' es'; simpl.
  { by intros [= <- <-]. }
  intros Hrun.
  apply bind_read_inv in Hrun as (keep & _ & Hrun); [|apply Hp].
  apply bind_read_inv in Hrun as (ys & Hys & Hrun);
    [|by apply is_read_array_filter].
  injection Hrun as <- <-.
  intros x Hx. destruct keep.
  - apply elem_of_cons in Hx as [->|Hx]; [left|right; by eapply IH].
  - right. by eapply IH.
Qed.

(** What is seen of a new array. *)

Lemma view_stable (h1 h2 k1 k2 : list object) v :
  (∀ l, v = VRef l -> is_Some (h1 !! l) ∧ h2 !! l = h1 !! l) ->
  view (h1 ++ k1) v = view (h2 ++ k2) v.
Proof.
  destruct v as [| |b|z| |s|l]; try done. intros Hv.
  destruct (Hv l eq_refl) as [[o Ho] Heq]. simpl.
  rewrite (lookup_alloc_old h1 k1 l o Ho).
  rewrite (lookup_alloc_old h2 k2 l o) by congruence. done.
Qed.

Lemma observe_alloc (h : list object) es :
  observe (alloc (Arr es) h) = Return (Some (map (view (h ++ [Arr es])) es)).
Proof. unfold observe, alloc. simpl. by rewrite lookup_new. Qed.

Lemma observe_added (h : list object) es i t :
  observe (bind (alloc (new_task i t)) (fun x => alloc (Arr (es ++ [x]))) h) =
  Return (Some (map (view (h ++ [new_task i t; Arr (es ++ [VRef (length h)])])) es
                ++ [inr (new_task i t)])).
Proof.
  unfold observe, bind, alloc. simpl.
  rewrite <- app_assoc. simpl.
  replace (length (h ++ [new_task i t])) with (S (length h))
    by (rewrite length_app; simpl; lia).
  change (h ++ [?a; ?b]) with (h ++ [a] ++ [b]).
  rewrite app_assoc.
  replace (S (length h)) with (length (h ++ [new_task i t])) at 1
    by (rewrite length_app; simpl; lia).
  rewrite lookup_new. rewrite map_app. simpl.
  rewrite <- app_assoc. simpl. by rewrite lookup_new.
Qed.

(** C7: the result of a call depends on nothing but its two arguments.
    Run in two stores that hold the same arguments (the objects
    reachable from [tasks] and [action] have the same content in both)
    and differ arbitrarily elsewhere, the two calls end alike: both
    throw the same error, or both return an array with the same
    elements, object elements having the same content. *)
Theorem tasksReducer_deterministic h1 h2 tasks action :
  same_arguments h1 h2 tasks action ->
  observe (tasksReducer tasks action h1) = observe (tasksReducer tasks action h2).
Proof.
  intros Hsame.
  assert (Htasks : h2 !! tasks = h1 !! tasks).
  { apply Hsame. left. apply reach_here. }
  assert (Hact : ∀ l, reach h1 action l -> h2 !! l = h1 !! l).
  { intros l Hl. apply Hsame. by right. }
  assert (Hact0 : ∀ l, action = VRef l -> h2 !! l = h1 !! l).
  { intros l ->. apply Hact, reach_here. }
  assert (Helem : ∀ es e l, array_elems tasks h1 = (h1, Return es) ->
            e ∈ es -> e = VRef l -> is_Some (h1 !! l) ∧ h2 !! l = h1 !! l).
  { intros es e l Hes He ->. apply Hsame. left.
    apply array_elems_return in Hes.
    apply (reach_elem h1 tasks es (VRef l) l Hes He), reach_here. }
  unfold tasksReducer.
  agree_step (is_read_get_prop action "type")
             (get_prop_agree h1 h2 action "type" Hact0) as ty.
  destruct (strict_eq ty (VString "added")).
  { agree_step (is_read_array_elems tasks)
               (array_elems_agree h1 h2 tasks Htasks) as es.
    agree_step (is_read_get_prop action "id")
               (get_prop_agree h1 h2 action "id" Hact0) as i.
    agree_step (is_read_get_prop action "text")
               (get_prop_agree h1 h2 action "text" Hact0) as t.
    rewrite !observe_added. do 3 f_equal.
    apply map_ext_elem. intros e He.
    apply view_stable. intros l. by apply (Helem es). }
  destruct (strict_eq ty (VString "changed")).
  { agree_step (is_read_array_elems tasks)
               (array_elems_agree h1 h2 tasks Htasks) as es.
    assert (Hcb : ∀ e, e ∈ es ->
              (changed_callback action e h1).2 = (changed_callback action e h2).2).
    { intros e He. apply changed_callback_agree; [|done].
      intros l Hl. by apply (Helem es e l). }
    agree_step (is_read_array_map _ es (is_read_changed_callback action))
               (array_map_agree h1 h2 _ es (is_read_changed_callback action) Hcb)
      as es'.
    rewrite !observe_alloc. do 2 f_equal.
    apply map_ext_elem. intros e He.
    apply view_stable. intros l ->.
    destruct (array_map_changed_result _ _ _ _ _ Ees' _ He) as [Hin|Hr].
    - by apply (Helem es (VRef l)).
    - apply Hsame. right. apply Hr, reach_here. }
  destruct (strict_eq ty (VString "deleted")).
  { agree_step (is_read_array_elems tasks)
               (array_elems_agree h1 h2 tasks Htasks) as es.
    assert (Hcb : ∀ e, e ∈ es ->
              (deleted_callback action e h1).2 = (deleted_callback action e h2).2).
    { intros e He. apply deleted_callback_agree; [|done].
      intros l Hl. by apply (Helem es e l). }
    agree_step (is_read_array_filter _ es (is_read_deleted_callback action))
               (array_filter_agree h1 h2 _ es (is_read_deleted_callback action) Hcb)
      as es'.
    rewrite !observe_alloc. do 2 f_equal.
    apply map_ext_elem. intros e He.
    apply view_stable. intros l ->.
    apply (Helem es (VRef l)); [done| |done].
    by apply (array_filter_result _ _ _ _ _ (is_read_deleted_callback action) Ees'). }
  agree_step (is_read_get_prop action "type")
             (get_prop_agree h1 h2 action "type" Hact0) as ty'.
  unfold bind. rewrite !to_string_run.
  rewrite (string_of_agree h1 h2 ty').
  { by destruct (string_of h2 ty'). }
  intros l Hl. apply Hact. by apply get_prop_reach with (1 := Ety').
Qed.

(** ** The theorems at work on the sample store *)

Lemma sample_tasks_list : tasks_list sample 2 [VRef 0; VRef 1].
Proof. split; vm_compute; reflexivity. Defined.

Example unknown_type_message :
  tasksReducer 2 (VRef 9) sample =
    (sample, Throw (Error "Unknown action: renamed")).
Proof. vm_compute. reflexivity. Qed.

Example non_string_type_message :
  (tasksReducer 2 (VRef 0) sample).2 = Throw (Error "Unknown action: undefined").
Proof. vm_compute. reflexivity. Qed.

(** Types that are not strings: a large number, a plain object, an
    object with a [toString] property, an array. *)
Example number_type_message :
  (tasksReducer 0 (VRef 1) [Arr []; obj [("type", VNumber (10 ^ 21))]]).2 =
    Throw (Error "Unknown action: 1e+21").
Proof. vm_compute. reflexivity. Qed.

Example object_type_message :
  (tasksReducer 0 (VRef 1) [Arr []; obj [("type", VRef 2)]; obj []]).2 =
    Throw (Error "Unknown action: [object Object]").
Proof. vm_compute. reflexivity. Qed.

Example object_type_not_convertible :
  (tasksReducer 0 (VRef 1)
     [Arr []; obj [("type", VRef 2)]; obj [("toString", VNumber 1)]]).2 =
    Throw TypeError.
Proof. vm_compute. reflexivity. Qed.

Example array_type_message :
  (tasksReducer 0 (VRef 1)
     [Arr []; obj [("type", VRef 2)];
      Arr [VNumber 1; VNull; VString "a"; VRef 2; VNaN]]).2 =
    Throw (Error "Unknown action: 1,,a,,NaN").
Proof. vm_compute. reflexivity. Qed.

Lemma tasksReducer_added_witness :
  sample !! 2 = Some (Arr [VRef 0; VRef 1]) ∧
  read sample (VRef 3) "type" = VString "added" ∧
  read sample (VRef 3) "id" = VNumber 2 ∧
  read sample (VRef 3) "text" = VString "c" ∧
  ∃ h' r n,
    tasksReducer 2 (VRef 3) sample = (h', Return (VRef r)) ∧
    h' !! r = Some (Arr ([VRef 0; VRef 1] ++ [VRef n])) ∧
    sample !! n = None ∧
    h' !! n = Some (Obj (<["id" := VNumber 2]>
                           (<["text" := VString "c"]> (<["done" := VBool false]> ∅)))) ∧
    ∀ l o, sample !! l = Some o -> h' !! l = Some o.
Proof.
  do 4 (split; [vm_compute; reflexivity|]).
  apply (tasksReducer_added sample 2 [VRef 0; VRef 1] (VRef 3));
    vm_compute; reflexivity.
Defined.

Lemma tasksReducer_changed_witness :
  tasks_list sample 2 [VRef 0; VRef 1] ∧
  read sample (VRef 5) "type" = VString "changed" ∧
  read sample (VRef 5) "task" = VRef 4 ∧
  nullish (VRef 4) = false ∧
  ∃ h' r es',
    tasksReducer 2 (VRef 5) sample = (h', Return (VRef r)) ∧
    h' !! r = Some (Arr es') ∧
    length es' = length [VRef 0; VRef 1] ∧
    (∀ k t, [VRef 0; VRef 1] !! k = Some t ->
       es' !! k = Some (if decide (same_id (read sample t "id")
                                           (read sample (VRef 4) "id"))
                        then VRef 4 else t)) ∧
    ∀ l o, sample !! l = Some o -> h' !! l = Some o.
Proof.
  split; [exact sample_tasks_list|].
  do 3 (split; [vm_compute; reflexivity|]).
  apply (tasksReducer_changed sample 2 [VRef 0; VRef 1] (VRef 5) (VRef 4));
    [exact sample_tasks_list|vm_compute; reflexivity..].
Defined.

Lemma tasksReducer_deleted_witness :
  tasks_list sample 2 [VRef 0; VRef 1] ∧
  read sample (VRef 6) "type" = VString "deleted" ∧
  read sample (VRef 6) "id" = VNumber 1 ∧
  ∃ h' r es',
    tasksReducer 2 (VRef 6) sample = (h', Return (VRef r)) ∧
    h' !! r = Some (Arr es') ∧
    es' = filter (fun t => ¬ same_id (read sample t "id") (VNumber 1))
                 [VRef 0; VRef 1] ∧
    (Forall (fun t => ¬ same_id (read sample t "id") (VNumber 1))
            [VRef 0; VRef 1] ->
     es' = [VRef 0; VRef 1]) ∧
    ∀ l o, sample !! l = Some o -> h' !! l = Some o.
Proof.
  split; [exact sample_tasks_list|].
  do 2 (split; [vm_compute; reflexivity|]).
  apply (tasksReducer_deleted sample 2 [VRef 0; VRef 1] (VRef 6) (VNumber 1));
    [exact sample_tasks_list|vm_compute; reflexivity..].
Defined.

Lemma tasksReducer_returns_iff_known_type_witness :
  tasks_list sample 2 [VRef 0; VRef 1] ∧
  is_object sample (VRef 9) = true ∧
  ¬ known_type (read sample (VRef 9) "type") ∧
  ¬ returns_normally sample 2 (VRef 9) ∧
  tasksReducer 2 (VRef 9) sample =
    (sample, Throw (Error "Unknown action: renamed")).
Proof.
  assert (is_object sample (VRef 9) = true) as Hobj by (vm_compute; reflexivity).
  assert (¬ known_type (read sample (VRef 9) "type")) as Hty.
  { intros [H|[H|H]]; vm_compute in H; discriminate H. }
  destruct (tasksReducer_returns_iff_known_type sample 2 [VRef 0; VRef 1] (VRef 9)
              sample_tasks_list Hobj) as (Hiff & _ & Hthrow).
  split; [exact sample_tasks_list|]. split; [exact Hobj|]. split; [exact Hty|].
  split.
  - intros Hret. apply Hty. exact (proj1 (proj1 Hiff Hret)).
  - apply (proj1 (Hthrow Hty)). vm_compute. reflexivity.
Defined.

(** C1, as stated, fails: on the sample tasks list, the action
    [{type: 'changed'}] is an action object whose type is one of the
    three handled types, and yet the call does not return: reading
    [action.task.id] throws a TypeError. *)
Lemma changed_without_task_throws :
  tasks_list sample 2 [VRef 0; VRef 1] ∧
  is_object sample (VRef 8) = true ∧
  known_type (read sample (VRef 8) "type") ∧
  tasksReducer 2 (VRef 8) sample = (sample, Throw TypeError) ∧
  ¬ returns_normally sample 2 (VRef 8).
Proof.
  split; [exact sample_tasks_list|].
  split; [vm_compute; reflexivity|].
  split; [right; left; vm_compute; reflexivity|].
  assert (tasksReducer 2 (VRef 8) sample = (sample, Throw TypeError)) as Hrun
    by (vm_compute; reflexivity).
  split; [exact Hrun|].
  intros (h' & r & Hret). rewrite Hrun in Hret. discriminate.
Qed.

Lemma added_then_deleted_roundtrip_witness :
  tasks_list sample 2 [VRef 0; VRef 1] ∧
  Forall (fun e => read sample e "id" ≠ VNumber 2) [VRef 0; VRef 1] ∧
  VNumber 2 ≠ VNaN ∧
  read sample (VRef 3) "type" = VString "added" ∧
  read sample (VRef 3) "id" = VNumber 2 ∧
  read sample (VRef 3) "text" = VString "c" ∧
  ∃ h1 r1,
    tasksReducer 2 (VRef 3) sample = (h1, Return (VRef r1)) ∧
    ∀ hx del,
      read (h1 ++ hx) del "type" = VString "deleted" ->
      read (h1 ++ hx) del "id" = VNumber 2 ->
      ∃ h2 r2,
        tasksReducer r1 del (h1 ++ hx) = (h2, Return (VRef r2)) ∧
        h2 !! r2 = Some (Arr [VRef 0; VRef 1]).
Proof.
  assert (Forall (fun e => read sample e "id" ≠ VNumber 2) [VRef 0; VRef 1])
    as Hfresh by (repeat constructor; vm_compute; discriminate).
  assert (VNumber 2 ≠ VNaN) as Hnan by discriminate.
  split; [exact sample_tasks_list|]. split; [exact Hfresh|]. split; [exact Hnan|].
  do 3 (split; [vm_compute; reflexivity|]).
  apply (added_then_deleted_roundtrip sample 2 [VRef 0; VRef 1] (VRef 3)
           (VNumber 2) (VString "c"));
    [exact sample_tasks_list|exact Hfresh|exact Hnan|vm_compute; reflexivity..].
Defined.

(** C9, as stated, fails for the id NaN.  No task of the sample list has
    the id NaN; the ['added'] action with that id appends a task, and
    the ['deleted'] action with the same id then removes nothing,
    because [NaN !== NaN] holds of the new task as of any other: the
    list that comes back has three elements, not the original two. *)
Lemma added_then_deleted_nan :
  tasks_list sample_nan 2 [VRef 0; VRef 1] ∧
  Forall (fun e => read sample_nan e "id" ≠ VNaN) [VRef 0; VRef 1] ∧
  read sample_nan (VRef 10) "type" = VString "added" ∧
  read sample_nan (VRef 10) "id" = VNaN ∧
  read sample_nan (VRef 11) "type" = VString "deleted" ∧
  read sample_nan (VRef 11) "id" = VNaN ∧
  ∃ h1 h2,
    tasksReducer 2 (VRef 10) sample_nan = (h1, Return (VRef 13)) ∧
    tasksReducer 13 (VRef 11) h1 = (h2, Return (VRef 14)) ∧
    h2 !! 14 = Some (Arr [VRef 0; VRef 1; VRef 12]) ∧
    h2 !! 14 ≠ Some (Arr [VRef 0; VRef 1]).
Proof.
  split; [split; vm_compute; reflexivity|].
  split; [repeat constructor; vm_compute; discriminate|].
  repeat (split; [vm_compute; reflexivity|]).
  eexists _, _. split; [vm_compute; reflexivity|].
  split; [vm_compute; reflexivity|].
  split; [vm_compute; reflexivity|]. vm_compute. discriminate.
Qed.

(** ** Closed stores *)

Lemma closed_object h l o :
  closed h = true -> h !! l = Some o ->
  match o with
  | Obj props => ∀ k v, props !! k = Some v -> valid h v = true
  | Arr es => ∀ v, v ∈ es -> valid h v = true
  end.
Proof.
  unfold closed. rewrite forallb_forall. intros Hc Hl.
  specialize (Hc o). rewrite <- list_elem_of_In in Hc.
  specialize (Hc (list_elem_of_lookup_2 _ _ _ Hl)).
  destruct o as [props|es]; rewrite forallb_forall in Hc.
  - intros k v Hk. apply Hc, list_elem_of_In, list_elem_of_fmap.
    exists (k, v). split; [done|]. by apply elem_of_map_to_list.
  - intros v Hv. by apply Hc, list_elem_of_In.
Qed.

Lemma reach_valid h v l :
  closed h = true -> valid h v = true -> reach h v l -> l < length h.
Proof.
  intros Hc Hv Hr. induction Hr as [l|l props k v l' Hl Hk _ IH|l es v l' Hl Hin _ IH].
  - simpl in Hv. by apply bool_decide_eq_true in Hv.
  - apply IH. by apply (closed_object h l _ Hc Hl k).
  - apply IH. by apply (closed_object h l _ Hc Hl).
Qed.

(** Allocating more objects in a closed store leaves the arguments the
    same. *)
Lemma same_arguments_extend (h k : list object) tasks action :
  closed h = true -> tasks < length h -> valid h action = true ->
  same_arguments h (h ++ k) tasks action.
Proof.
  intros Hc Ht Ha l Hl.
  assert (l < length h) as Hlt.
  { destruct Hl as [Hl|Hl].
    - apply (reach_valid h (VRef tasks) l Hc); [|done].
      simpl. by apply bool_decide_eq_true.
    - by apply (reach_valid h action l Hc). }
  apply lookup_lt_is_Some in Hlt as [o Ho].
  split; [by exists o|]. rewrite Ho. by apply lookup_alloc_old.
Qed.

Lemma tasksReducer_deterministic_witness :
  same_arguments sample (sample ++ [Arr [VNull]; obj [("type", VString "added")]])
                 2 (VRef 5) ∧
  observe (tasksReducer 2 (VRef 5) sample) =
  observe (tasksReducer 2 (VRef 5)
             (sample ++ [Arr [VNull]; obj [("type", VString "added")]])).
Proof.
  assert (same_arguments sample
            (sample ++ [Arr [VNull]; obj [("type", VString "added")]]) 2 (VRef 5))
    as Hsame.
  { apply same_arguments_extend; [vm_compute; reflexivity|simpl; lia|
                                   vm_compute; reflexivity]. }
  split; [exact Hsame|].
  exact (tasksReducer_deterministic _ _ 2 (VRef 5) Hsame).
Defined.

End ReducerSpec.

(** * The props example *)
Module PropsExampleSpec.
Import JSX PropsExample.

(** The [Avatar] of the lesson text, given the props that
    [ParentComponent] passes, renders the image of the person. *)
Lemma Avatar_documented_img :
  ∃ img,
    Avatar_documented (<["person" := user]> (<["size" := VNumber 100]> ∅)) =
      Return (Element (Host "img") img []) ∧
    prop img "width" = VNumber 100 ∧ prop img "height" = VNumber 100 ∧
    prop img "src" = VString "1bX5QH6" ∧ prop img "alt" = VString "Lin Lanying".
Proof.
  eexists. split; [reflexivity|]. repeat split; vm_compute; reflexivity.
Qed.

(** C2, what the code does: [ParentComponent] passes [person] and
    [size], [Avatar] reads [name], [imageId] and [size]; so the first
    [img] that [Avatar] renders has width and height 100, but its [src]
    and [alt] are [undefined], not the imageId and the name of the
    user. *)
Theorem ParentComponent_img_has_no_src_nor_alt :
  ∃ img rest,
    host_elements "img" (render ParentComponent) = img :: rest ∧
    prop img "width" = VNumber 100 ∧ prop img "height" = VNumber 100 ∧
    prop img "src" = VUndefined ∧ prop img "alt" = VUndefined ∧
    prop img "src" ≠ VString "1bX5QH6" ∧ prop img "alt" ≠ VString "Lin Lanying".
Proof.
  eexists _, _. split; [reflexivity|].
  repeat split; try (vm_compute; reflexivity); vm_compute; discriminate.
Qed.

End PropsExampleSpec.

(** * Conditional rendering *)
Module ConditionalRenderingSpec.
Import JSX ConditionalRendering.

Lemma app_cons c s t : String c s +:+ t = String c (s +:+ t).
Proof. reflexivity. Qed.

Lemma app_nil_r s : s +:+ "" = s.
Proof. induction s as [|c s IH]; [done|]. by rewrite app_cons, IH. Qed.

Lemma app_assoc s t u : (s +:+ t) +:+ u = s +:+ (t +:+ u).
Proof. induction s as [|c s IH]; [done|]. by rewrite !app_cons, IH. Qed.

(** A space at the end of a text adds no word. *)
Lemma split_words_trailing_space cur s :
  split_words cur (s +:+ " ") = split_words cur s.
Proof.
  revert cur. induction s as [|c s IH]; intros cur.
  - by destruct cur.
  - rewrite app_cons. simpl. destruct (is_space c); [|apply IH].
    destruct cur; by rewrite IH.
Qed.

Lemma visible_trailing_space s : visible (s +:+ " ") = visible s.
Proof. unfold visible. by rewrite split_words_trailing_space. Qed.

(** The text content of each variant, character for character. *)
Lemma Item_text_contents name :
  textContent (Item_if name true) = Some (name +:+ " ✔") ∧
  textContent (Item_ternary name true) = Some (name +:+ " ✔") ∧
  textContent (Item_and name true) = Some (name +:+ " ✔") ∧
  textContent (Item_if name false) = Some name ∧
  textContent (Item_ternary name false) = Some name ∧
  textContent (Item_and name false) = Some (name +:+ " ").
Proof.
  unfold Item_if, Item_ternary, Item_and, li. simpl.
  change ("" : string) with EmptyString.
  rewrite !app_nil_r. done.
Qed.

(** C8: for every name and every value of [isPacked], the three
    variants of [Item] show the same thing: the name followed by a check
    mark when [isPacked] is true, the name alone otherwise. *)
Theorem Item_variants_equivalent (name : string) (isPacked : bool) :
  let shown := visible (if isPacked then name +:+ " ✔" else name) in
  visibleContent (Item_if name isPacked) = Some shown ∧
  visibleContent (Item_ternary name isPacked) = Some shown ∧
  visibleContent (Item_and name isPacked) = Some shown.
Proof.
  destruct (Item_text_contents name) as (H1 & H2 & H3 & H4 & H5 & H6).
  unfold visibleContent. cbv zeta.
  destruct isPacked.
  - by rewrite H1, H2, H3.
  - rewrite H4, H5, H6. simpl. by rewrite visible_trailing_space.
Qed.

End ConditionalRenderingSpec.

(** * The cart hook *)
Module CartSpec.
Import Cart.

(** Adding an item keeps the total equal to the sum of the prices, as
    long as the sum is an integer that numbers hold exactly. *)
Lemma sum_prices_app its it :
  sum_prices (its ++ [it]) = (sum_prices its + it.(price))%Z.
Proof.
  unfold sum_prices. induction its as [|x its IH]; simpl; [lia|].
  rewrite IH. lia.
Qed.

Lemma addItem_keeps_total it s :
  s.(total) = sum_prices s.(items) ->
  (Z.abs (sum_prices s.(items) + it.(price)) <= Double.two53)%Z ->
  ∃ s', (useCart s).(cart_addItem) it = Return s' ∧
        s'.(total) = sum_prices s'.(items).
Proof.
  intros Hs Hsafe. eexists. split; [reflexivity|]. simpl.
  rewrite sum_prices_app, Hs. by apply DoubleSpec.add_exact.
Qed.

(** The updater that [removeItem] hands to [setItems] does its work. *)
Lemma removeItem_items_filters i prev :
  removeItem_items i prev =
    Return (List.filter (fun it => negb (Z.eqb it.(id) i)) prev).
Proof. reflexivity. Qed.

(** The updater that [removeItem] hands to [setTotal] throws, whatever
    the previous total. *)
Lemma removeItem_total_throws i prev : removeItem_total i prev = Throw TypeError.
Proof. reflexivity. Qed.

(** C10, what the code does: after [removeItem] the next render throws a
    TypeError, whatever the id and the state, and neither the items nor
    the total are updated.  So adding one item and removing it does not
    bring the cart back to the empty state with total 0, and removing an
    id that is not in the cart does not leave the state unchanged. *)
Theorem removeItem_throws :
  (∀ i s, (useCart s).(cart_removeItem) i = Throw TypeError) ∧
  run [AddItem {| id := 1; price := 10 |}; RemoveItem 1] initial = Throw TypeError ∧
  run [RemoveItem 7] initial = Throw TypeError.
Proof.
  assert (∀ i s, removeItem i s = Throw TypeError) as Hrm.
  { intros i s. unfold removeItem, apply_updaters.
    by rewrite removeItem_items_filters, removeItem_total_throws. }
  split; [exact Hrm|]. split; reflexivity.
Qed.

End CartSpec.

(** * More on the reducer and on the handlers around it *)
Module ReducerMore.
Import Reducer TaskApp PurityLesson ReducerSpec.

(** ** Helpers *)

Lemma is_object_lookup h v :
  is_object h v = true -> ∃ l props, v = VRef l ∧ h !! l = Some (Obj props).
Proof.
  destruct v as [| |b|z| |s|l]; try done. simpl.
  destruct (h !! l) as [[props|es]|] eqn:E; try done. eauto.
Qed.

Lemma view_extend (h k : list object) v :
  is_object h v = true -> view (h ++ k) v = view h v.
Proof.
  intros (l & props & -> & Hl)%is_object_lookup. simpl.
  by rewrite (lookup_alloc_old h k l _ Hl), Hl.
Qed.

Lemma map_view_extend (h k : list object) es :
  forallb (is_object h) es = true -> map (view (h ++ k)) es = map (view h) es.
Proof.
  intros Hes. apply map_ext_elem. intros e He.
  apply view_extend. by apply (forallb_is_object_elem h es).
Qed.

(** Allocating an array changes no property read. *)
Lemma read_alloc_array (h : list object) es v name :
  read (h ++ [Arr es]) v name = read h v name.
Proof.
  destruct v as [| |b|z| |s|l]; try done. simpl.
  destruct (decide (l < length h)) as [Hlt|Hge].
  - by rewrite lookup_app_l.
  - rewrite lookup_app_r, (lookup_ge_None_2 h l) by lia.
    destruct (l - length h) as [|n]; [done|]. by destruct n.
Qed.

Lemma tasks_list_extend (h k : list object) tasks es :
  tasks_list h tasks es -> tasks_list (h ++ k) tasks es.
Proof.
  intros [Harr Hes]. split; [by apply lookup_alloc_old|].
  by apply forallb_is_object_extend.
Qed.

(** ** The two handlers that add a task *)

(** X1: on a tasks list, the handler written with [setTasks] and the
    handler that dispatches an ['added'] action to the reducer leave the
    counter at the same value [c] and give next states with the same
    elements: those of the current list followed by a new task
    [{id: nextId, text: text, done: false}].  The counter has advanced
    by one when [nextId] is an integer from -2^53 up to 2^53 - 1 (from
    2^53 on, adding one to a number need not change it). *)
Theorem handleAddTask_refactoring h nextId tasks es text :
  tasks_list h tasks es ->
  ∃ c h1 r1 h2 r2,
    handleAddTask_useState nextId tasks text h = (h1, Return (c, r1)) ∧
    handleAddTask_useReducer nextId tasks text h = (h2, Return (c, r2)) ∧
    observe (h1, Return r1) =
      Return (Some (map (view h) es ++ [inr (new_task (VNumber nextId) text)])) ∧
    observe (h2, Return r2) = observe (h1, Return r1) ∧
    ((- Double.two53 <= nextId < Double.two53)%Z -> c = (nextId + 1)%Z).
Proof.
  intros [Harr Hes].
  set (nt := new_task (VNumber nextId) text).
  set (act := Obj (<["type" := VString "added"]>
                     (<["id" := VNumber nextId]> (<["text" := text]> ∅)))).
  assert (Hact : (h ++ [act]) !! length h = Some act) by apply lookup_new.
  assert (Hty : read (h ++ [act]) (VRef (length h)) "type" = VString "added").
  { unfold read. rewrite Hact. unfold act. by rewrite lookup_insert_eq. }
  assert (Hid : read (h ++ [act]) (VRef (length h)) "id" = VNumber nextId).
  { unfold read. rewrite Hact. unfold act.
    rewrite lookup_insert_ne by done. by rewrite lookup_insert_eq. }
  assert (Htx : read (h ++ [act]) (VRef (length h)) "text" = text).
  { unfold read. rewrite Hact. unfold act.
    rewrite !lookup_insert_ne by done. by rewrite lookup_insert_eq. }
  pose proof (run_added (h ++ [act]) tasks es (VRef (length h))
                (lookup_alloc_old h [act] tasks _ Harr) Hty) as Hrun.
  rewrite Hid, Htx in Hrun. fold nt in Hrun.
  assert (Hobs : ∀ (g : list object),
            forallb (is_object g) es = true ->
            observe (g ++ [nt; Arr (es ++ [VRef (length g)])],
                     Return (VRef (S (length g)))) =
            Return (Some (map (view g) es ++ [inr nt]))).
  { intros g Hg.
    pose proof (observe_added g es (VNumber nextId) text) as Ho.
    unfold bind, alloc in Ho. simpl in Ho.
    rewrite <- app_assoc, length_app in Ho. simpl in Ho.
    rewrite Nat.add_1_r in Ho. fold nt in Ho. rewrite Ho.
    by rewrite (map_view_extend g _ es Hg). }
  exists (Double.add nextId 1).
  eexists _, _, _, _. split; [|split; [|split; [|split]]].
  - unfold handleAddTask_useState.
    rewrite (bind_return _ _ _ _ _ (array_elems_array h tasks es Harr)).
    unfold bind, alloc, ret. simpl. rewrite <- app_assoc, length_app. simpl.
    rewrite Nat.add_1_r. fold nt. reflexivity.
  - unfold handleAddTask_useReducer, dispatch.
    unfold bind at 1. unfold alloc at 1. fold act.
    by rewrite (bind_return _ _ _ _ _ Hrun).
  - by apply Hobs.
  - rewrite (Hobs h Hes), (Hobs (h ++ [act])) by by apply forallb_is_object_extend.
    by rewrite (map_view_extend h [act] es Hes).
  - intros Hsafe. apply DoubleSpec.add_exact. lia.
Qed.

(** ** Ids under the three actions *)

Lemma ids_extend (h k : list object) es :
  forallb (is_object h) es = true -> ids (h ++ k) es = ids h es.
Proof.
  intros Hes. apply map_ext_elem. intros e He.
  apply read_extend. by apply (forallb_is_object_elem h es).
Qed.

Lemma ids_alloc_array (h : list object) es' es :
  ids (h ++ [Arr es']) es = ids h es.
Proof. apply map_ext_elem. intros e _. apply read_alloc_array. Qed.

(** The ids of the list that a ['changed'] action produces. *)
Lemma changed_ids h (task : value) es :
  ids h (map (fun t => if strict_eq (read h t "id") (read h task "id")
                       then task else t) es) = ids h es.
Proof.
  unfold ids. rewrite map_map. apply map_ext_elem. intros t _.
  destruct (strict_eq _ _) eqn:E; [|done].
  symmetry. by apply strict_eq_eq.
Qed.

Lemma forallb_is_object_filter h (P : value -> Prop) `{!∀ x, Decision (P x)} es :
  forallb (is_object h) es = true -> forallb (is_object h) (filter P es) = true.
Proof.
  induction es as [|e es IH]; [done|]. simpl.
  rewrite andb_true_iff. intros [He Hes]. rewrite filter_cons.
  destruct (decide (P e)); simpl; [rewrite He|]; by apply IH.
Qed.

(** X2: a ['changed'] action never changes an id: at every position the
    task of the result has the id that the task of the input had. *)
Theorem changed_keeps_ids h tasks es action task :
  tasks_list h tasks es ->
  read h action "type" = VString "changed" ->
  read h action "task" = task ->
  nullish task = false ->
  ∃ h' r es',
    tasksReducer tasks action h = (h', Return (VRef r)) ∧
    h' !! r = Some (Arr es') ∧
    ids h' es' = ids h es.
Proof.
  intros Hl Hty Htask Hn.
  eexists _, _, _. split; [by apply (run_changed h tasks es action task)|].
  split; [apply lookup_new|].
  by rewrite ids_alloc_array, changed_ids.
Qed.

(** X3: distinct ids stay distinct.  On a tasks list whose ids are
    pairwise distinct, a handled action (for ['added'], with an id that
    no task has; for ['changed'], carrying a task) yields a list whose
    ids are pairwise distinct. *)
Theorem distinct_ids_preserved h tasks es action :
  tasks_list h tasks es ->
  NoDup (ids h es) ->
  known_type (read h action "type") ->
  (read h action "type" = VString "added" -> read h action "id" ∉ ids h es) ->
  (read h action "type" = VString "changed" ->
   nullish (read h action "task") = false) ->
  ∃ h' r es',
    tasksReducer tasks action h = (h', Return (VRef r)) ∧
    h' !! r = Some (Arr es') ∧
    NoDup (ids h' es').
Proof.
  intros Hl Hnd [Hty|[Hty|Hty]] Hadd Hchg; destruct Hl as [Harr Hes].
  - eexists _, _, (es ++ [VRef (length h)]).
    split; [by apply (run_added h tasks es)|].
    set (nt := new_task _ _).
    assert ((h ++ [nt; Arr (es ++ [VRef (length h)])]) !! length h = Some nt)
      as Hnew by apply lookup_new.
    split.
    + change (h ++ [nt; ?b]) with (h ++ [nt] ++ [b]). rewrite app_assoc.
      replace (S (length h)) with (length (h ++ [nt]))
        by (rewrite length_app; simpl; lia).
      apply lookup_new.
    + unfold ids. rewrite map_app. fold (ids (h ++ [nt; Arr (es ++ [VRef (length h)])]) es).
      rewrite ids_extend by done. apply NoDup_app. split; [done|]. split.
      * intros x Hx [->|[]%elem_of_nil]%elem_of_cons.
        revert Hx. unfold read at 1. rewrite Hnew. unfold nt, new_task.
        rewrite lookup_insert_eq. simpl. by apply Hadd.
      * apply NoDup_singleton.
  - eexists _, _, _.
    split; [by apply (run_changed h tasks es action _ (conj Harr Hes) Hty eq_refl),
              Hchg|].
    split; [apply lookup_new|].
    by rewrite ids_alloc_array, changed_ids.
  - eexists _, _, _.
    split; [by apply (run_deleted h tasks es action _ (conj Harr Hes) Hty eq_refl)|].
    split; [apply lookup_new|].
    rewrite ids_alloc_array. unfold ids.
    apply (sublist_NoDup _ (map (fun t => read h t "id") es)); [done|].
    apply (fmap_sublist (fun t => read h t "id")), sublist_filter.
Qed.

(** ** Dispatching an action twice *)

Lemma forallb_is_object_changed h (task : value) es :
  forallb (is_object h) es = true -> is_object h task = true ->
  forallb (is_object h)
    (map (fun t => if strict_eq (read h t "id") (read h task "id")
                   then task else t) es) = true.
Proof.
  intros Hes Ht. induction es as [|e es IH]; [done|]. simpl in *.
  apply andb_true_iff in Hes as [He Hes]. rewrite (IH Hes), andb_true_r.
  by destruct (strict_eq _ _).
Qed.

(** X4: a ['deleted'] action, and a ['changed'] action carrying a task
    object, are idempotent: dispatched again on the list they produced,
    they produce a list with the same elements. *)
Theorem changed_deleted_idempotent h tasks es action :
  tasks_list h tasks es ->
  read h action "type" = VString "deleted" ∨
  (read h action "type" = VString "changed" ∧
   is_object h (read h action "task") = true) ->
  ∃ h1 r1 es1,
    tasksReducer tasks action h = (h1, Return (VRef r1)) ∧
    h1 !! r1 = Some (Arr es1) ∧
    ∃ h2 r2,
      tasksReducer r1 action h1 = (h2, Return (VRef r2)) ∧
      h2 !! r2 = Some (Arr es1).
Proof.
  intros [Harr Hes] [Hty|[Hty Htask]].
  - set (i := read h action "id").
    set (es1 := filter (fun t => ¬ same_id (read h t "id") i) es).
    exists (h ++ [Arr es1]), (length h), es1.
    split; [by apply (run_deleted h tasks es action i)|].
    split; [apply lookup_new|].
    assert (tasks_list (h ++ [Arr es1]) (length h) es1) as Hl1.
    { split; [apply lookup_new|].
      by apply forallb_is_object_extend, forallb_is_object_filter. }
    eexists _, _.
    split; [apply (run_deleted _ _ es1 action i Hl1);
            by rewrite read_alloc_array|].
    rewrite lookup_new. do 2 f_equal. apply filter_all.
    intros t Ht. rewrite read_alloc_array.
    by apply list_elem_of_filter in Ht as [Ht _].
  - set (task := read h action "task") in *.
    set (f := fun t => if strict_eq (read h t "id") (read h task "id")
                       then task else t).
    exists (h ++ [Arr (map f es)]), (length h), (map f es).
    pose proof (is_object_not_nullish _ _ Htask) as Hn.
    split; [by apply (run_changed h tasks es action task)|].
    split; [apply lookup_new|].
    assert (tasks_list (h ++ [Arr (map f es)]) (length h) (map f es)) as Hl1.
    { split; [apply lookup_new|].
      by apply forallb_is_object_extend, forallb_is_object_changed. }
    eexists _, _.
    split; [apply (run_changed _ _ (map f es) action task Hl1);
            by rewrite ?read_alloc_array|].
    rewrite lookup_new. do 2 f_equal.
    rewrite map_map. apply map_ext_elem. intros t _.
    rewrite !read_alloc_array. unfold f.
    destruct (strict_eq (read h t "id") (read h task "id")) eqn:E.
    + by rewrite (strict_eq_self _ _ E).
    + by rewrite E.
Qed.

(** ** Edge cases *)

(** X5: on an empty tasks list, a ['changed'] or a ['deleted'] action
    returns a new empty list whatever else the action holds (the
    callbacks are never run, so a ['changed'] action without a task does
    not throw here). *)
Theorem empty_list_changed_deleted h tasks action :
  h !! tasks = Some (Arr []) ->
  read h action "type" = VString "changed" ∨
  read h action "type" = VString "deleted" ->
  tasksReducer tasks action h = (h ++ [Arr []], Return (VRef (length h))).
Proof.
  intros Harr Hty.
  assert (nullish action = false) as Ha
    by (destruct Hty as [Hty|Hty]; by apply (read_type_not_nullish h _ _ Hty)).
  unfold tasksReducer.
  rewrite (bind_return _ _ _ _ _ (get_prop_read h action "type" Ha)).
  destruct Hty as [-> | ->]; cbn [strict_eq].
  - change (String.eqb "changed" "added") with false.
    change (String.eqb "changed" "changed") with true. cbv iota.
    by rewrite (bind_return _ _ _ _ _ (array_elems_array h tasks [] Harr)).
  - change (String.eqb "deleted" "added") with false.
    change (String.eqb "deleted" "changed") with false.
    change (String.eqb "deleted" "deleted") with true. cbv iota.
    by rewrite (bind_return _ _ _ _ _ (array_elems_array h tasks [] Harr)).
Qed.

Lemma array_elems_not_array h tasks :
  (∀ es, h !! tasks ≠ Some (Arr es)) -> array_elems tasks h = (h, Throw TypeError).
Proof.
  intros Hno. unfold array_elems.
  destruct (h !! tasks) as [[props|es]|] eqn:E; try done. by destruct (Hno es).
Qed.

(** X6: which error, and when.  A missing action ([undefined] or
    [null]) gives a TypeError.  The type is looked at before the list:
    an action of an unknown type gives the ['Unknown action'] Error (or
    the TypeError of a type that cannot be converted to a string)
    whatever [tasks] refers to; and an action of a handled type on a
    [tasks] that refers to a plain object, which can be neither spread,
    nor mapped, nor filtered, gives a TypeError.  In all three cases the
    store is left as it was. *)
Theorem tasksReducer_errors h tasks action :
  (nullish action = true ->
   tasksReducer tasks action h = (h, Throw TypeError)) ∧
  (nullish action = false -> ¬ known_type (read h action "type") ->
   tasksReducer tasks action h =
     (h, Throw match string_of h (read h action "type") with
               | Some s => Error ("Unknown action: " +:+ s)
               | None => TypeError
               end)) ∧
  (known_type (read h action "type") ->
   (∃ props, h !! tasks = Some (Obj props)) ->
   tasksReducer tasks action h = (h, Throw TypeError)).
Proof.
  split; [|split].
  - intros Ha. unfold tasksReducer.
    by rewrite (bind_throw _ _ _ _ _ (get_prop_nullish h action "type" Ha)).
  - apply run_unknown.
  - intros Hty [props Hobj].
    assert (nullish action = false) as Ha
      by (destruct Hty as [Hty|[Hty|Hty]];
          by apply (read_type_not_nullish h _ _ Hty)).
    unfold tasksReducer.
    rewrite (bind_return _ _ _ _ _ (get_prop_read h action "type" Ha)).
    assert (array_elems tasks h = (h, Throw TypeError)) as Helems
      by (apply array_elems_not_array; intros es; by rewrite Hobj).
    destruct Hty as [-> |[-> | ->]]; cbn [strict_eq].
    + change (String.eqb "added" "added") with true. cbv iota.
      by rewrite (bind_throw _ _ _ _ _ Helems).
    + change (String.eqb "changed" "added") with false.
      change (String.eqb "changed" "changed") with true. cbv iota.
      by rewrite (bind_throw _ _ _ _ _ Helems).
    + change (String.eqb "deleted" "added") with false.
      change (String.eqb "deleted" "changed") with false.
      change (String.eqb "deleted" "deleted") with true. cbv iota.
      by rewrite (bind_throw _ _ _ _ _ Helems).
Qed.

(** X7: a ['changed'] action whose task has an id that no task of the
    list has changes nothing: the new list has the elements of the
    input. *)
Theorem changed_unknown_id h tasks es action task :
  tasks_list h tasks es ->
  read h action "type" = VString "changed" ->
  read h action "task" = task ->
  nullish task = false ->
  Forall (fun t => read h t "id" ≠ read h task "id") es ->
  ∃ h' r,
    tasksReducer tasks action h = (h', Return (VRef r)) ∧
    h' !! r = Some (Arr es).
Proof.
  intros Hl Hty Htask Hn Hno.
  eexists _, _. split; [by apply (run_changed h tasks es action task)|].
  rewrite lookup_new. do 2 f_equal.
  rewrite <- (map_id es) at 2. apply map_ext_elem. intros t Ht.
  rewrite Forall_forall in Hno.
  by rewrite (strict_eq_neq _ _ (Hno t Ht)).
Qed.

(** ** The impure and the pure reducer of the purity lesson *)

Lemma array_push_array (h : list object) tasks es v :
  h !! tasks = Some (Arr es) ->
  array_push tasks v h =
    (<[tasks := Arr (es ++ [v])]> h, Return (VNumber (Z.of_nat (length es) + 1))).
Proof. unfold array_push. by intros ->. Qed.

Lemma run_impure_added h tasks es action :
  h !! tasks = Some (Arr es) ->
  read h action "type" = VString "added" ->
  tasksReducer_impure tasks action h =
    (<[tasks := Arr (es ++ [VRef (length h)])]>
       (h ++ [new_item (read h action "id") (read h action "text")]),
     Return (VRef tasks)).
Proof.
  intros Harr Hty.
  pose proof (read_type_not_nullish _ _ _ Hty) as Ha.
  unfold tasksReducer_impure.
  rewrite (bind_return _ _ _ _ _ (get_prop_read h action "type" Ha)), Hty.
  cbn [strict_eq]. change (String.eqb "added" "added") with true. cbv iota.
  rewrite (bind_return _ _ _ _ _ (get_prop_read h action "id" Ha)).
  rewrite (bind_return _ _ _ _ _ (get_prop_read h action "text" Ha)).
  unfold bind at 1. unfold alloc.
  by rewrite (bind_return _ _ _ _ _
                (array_push_array _ tasks es _ (lookup_alloc_old h _ tasks _ Harr))).
Qed.

Lemma run_pure_added h tasks es action :
  h !! tasks = Some (Arr es) ->
  read h action "type" = VString "added" ->
  tasksReducer_pure tasks action h =
    (h ++ [new_item (read h action "id") (read h action "text");
           Arr (es ++ [VRef (length h)])],
     Return (VRef (S (length h)))).
Proof.
  intros Harr Hty.
  pose proof (read_type_not_nullish _ _ _ Hty) as Ha.
  unfold tasksReducer_pure.
  rewrite (bind_return _ _ _ _ _ (get_prop_read h action "type" Ha)), Hty.
  cbn [strict_eq]. change (String.eqb "added" "added") with true. cbv iota.
  rewrite (bind_return _ _ _ _ _ (array_elems_array h tasks es Harr)).
  rewrite (bind_return _ _ _ _ _ (get_prop_read h action "id" Ha)).
  rewrite (bind_return _ _ _ _ _ (get_prop_read h action "text" Ha)).
  unfold bind, alloc. simpl. rewrite length_app. simpl.
  by rewrite Nat.add_1_r, <- app_assoc.
Qed.

(** X8: the impure reducer mutates its argument.  For an ['added']
    action on an array it returns the very reference it was given, and
    the array that this reference designates has grown by one element, a
    new object [{id: action.id, text: action.text}]; no other object
    that existed before the call is changed. *)
Theorem impure_reducer_mutates h tasks es action :
  h !! tasks = Some (Arr es) ->
  read h action "type" = VString "added" ->
  ∃ h' n,
    tasksReducer_impure tasks action h = (h', Return (VRef tasks)) ∧
    h' !! tasks = Some (Arr (es ++ [VRef n])) ∧
    h !! n = None ∧
    h' !! n = Some (Obj (<["id" := read h action "id"]>
                           (<["text" := read h action "text"]> ∅))) ∧
    ∀ l o, l ≠ tasks -> h !! l = Some o -> h' !! l = Some o.
Proof.
  intros Harr Hty. pose proof (lookup_lt_Some _ _ _ Harr) as Hlt.
  eexists _, (length h). split; [by apply (run_impure_added h tasks es)|].
  split; [|split; [|split]].
  - apply list_lookup_insert_eq. rewrite length_app. lia.
  - by apply lookup_ge_None_2.
  - rewrite list_lookup_insert_ne by lia. apply lookup_new.
  - intros l o Hne Hl. rewrite list_lookup_insert_ne by done.
    by apply lookup_alloc_old.
Qed.

(** X9: the pure reducer does not.  For an ['added'] action on a tasks
    list it returns a reference to a new array and changes no object
    that existed before the call; the elements of that array are those
    that the impure reducer leaves in the mutated input. *)
Theorem pure_reducer_same_result_no_mutation h tasks es action :
  tasks_list h tasks es ->
  read h action "type" = VString "added" ->
  ∃ h1 r h2,
    tasksReducer_pure tasks action h = (h1, Return (VRef r)) ∧
    r ≠ tasks ∧ h !! r = None ∧
    (∀ l o, h !! l = Some o -> h1 !! l = Some o) ∧
    tasksReducer_impure tasks action h = (h2, Return (VRef tasks)) ∧
    observe (h1, Return (VRef r)) = observe (h2, Return (VRef tasks)).
Proof.
  intros [Harr Hes] Hty. pose proof (lookup_lt_Some _ _ _ Harr) as Hlt.
  set (ni := new_item (read h action "id") (read h action "text")).
  eexists _, _, _. split; [by apply (run_pure_added h tasks es)|].
  split; [lia|]. split; [apply lookup_ge_None_2; lia|].
  split; [intros l o Hl; by apply lookup_alloc_old|].
  split; [by apply (run_impure_added h tasks es)|].
  fold ni. unfold observe. cbn [fst snd].
  change (h ++ [ni; ?b]) with (h ++ [ni] ++ [b]). rewrite app_assoc.
  replace (S (length h)) with (length (h ++ [ni]))
    by (rewrite length_app; simpl; lia).
  rewrite lookup_new.
  rewrite list_lookup_insert_eq by (rewrite length_app; lia).
  do 2 f_equal. rewrite !map_app. f_equal.
  - apply map_ext_elem. intros e He.
    apply (forallb_is_object_elem h es e Hes) in He.
    apply is_object_lookup in He as (l & props & -> & Hl). simpl.
    assert (l ≠ tasks) as Hne by (intros ->; congruence).
    rewrite list_lookup_insert_ne by done.
    rewrite <- app_assoc.
    by rewrite !(lookup_alloc_old h _ l _ Hl).
  - simpl. rewrite list_lookup_insert_ne by lia.
    rewrite <- app_assoc. simpl. by rewrite !lookup_new.
Qed.

(** X10: for an action of any other type, ['changed'] and ['deleted']
    included, the two reducers of the purity lesson return [undefined]
    and leave the store as it was; they do not throw. *)
Theorem purity_reducers_other_actions h tasks action :
  nullish action = false ->
  read h action "type" ≠ VString "added" ->
  tasksReducer_impure tasks action h = (h, Return VUndefined) ∧
  tasksReducer_pure tasks action h = (h, Return VUndefined).
Proof.
  intros Ha Hty. unfold tasksReducer_impure, tasksReducer_pure.
  rewrite !(bind_return _ _ _ _ _ (get_prop_read h action "type" Ha)).
  by rewrite (strict_eq_neq _ _ Hty).
Qed.

(** ** The nested update of the user *)

Lemma spread_props_object h l props :
  h !! l = Some (Obj props) -> spread_props (VRef l) h = (h, Return props).
Proof. unfold spread_props. by intros ->. Qed.

Lemma get_prop_object h l props name :
  h !! l = Some (Obj props) ->
  get_prop (VRef l) name h = (h, Return (default VUndefined (props !! name))).
Proof. simpl. by intros ->. Qed.

Lemma lookup_new_4 (h : list object) a b c d :
  (h ++ [a; b; c; d]) !! length h = Some a ∧
  (h ++ [a; b; c; d]) !! (length h + 1) = Some b ∧
  (h ++ [a; b; c; d]) !! (length h + 2) = Some c ∧
  (h ++ [a; b; c; d]) !! (length h + 3) = Some d.
Proof.
  repeat split; rewrite lookup_app_r by lia.
  - by rewrite Nat.sub_diag.
  - by replace (length h + 1 - length h) with 1 by lia.
  - by replace (length h + 2 - length h) with 2 by lia.
  - by replace (length h + 3 - length h) with 3 by lia.
Qed.

Lemma run_toggle h user action U P S N p s n :
  nested_user h user U P S N p s n ->
  read h action "type" = VString "toggle_notifications" ->
  userReducer user action h =
    (h ++ [ Obj (<["sms" := VBool (negb (truthy (default VUndefined (N !! "sms"))))]> N);
            Obj (<["notifications" := VRef (length h)]> S);
            Obj (<["settings" := VRef (length h + 1)]> P);
            Obj (<["profile" := VRef (length h + 2)]> U) ],
     Return (VRef (length h + 3))).
Proof.
  intros (u & -> & HU & Hp & HP & Hs & HS & Hn & HN) Hty.
  pose proof (read_type_not_nullish _ _ _ Hty) as Ha.
  pose proof (get_prop_object h u U "profile" HU) as Gp. rewrite Hp in Gp.
  pose proof (get_prop_object h p P "settings" HP) as Gs. rewrite Hs in Gs.
  pose proof (get_prop_object h s S "notifications" HS) as Gn. rewrite Hn in Gn.
  simpl in Gp, Gs, Gn.
  unfold userReducer.
  rewrite (bind_return _ _ _ _ _ (get_prop_read h action "type" Ha)), Hty.
  cbn [strict_eq].
  change (String.eqb "toggle_notifications" "toggle_notifications") with true.
  cbv iota.
  rewrite (bind_return _ _ _ _ _ (spread_props_object h u U HU)).
  rewrite (bind_return _ _ _ _ _ Gp).
  rewrite (bind_return _ _ _ _ _ (spread_props_object h p P HP)).
  rewrite (bind_return _ _ _ _ _ Gp), (bind_return _ _ _ _ _ Gs).
  rewrite (bind_return _ _ _ _ _ (spread_props_object h s S HS)).
  rewrite (bind_return _ _ _ _ _ Gp), (bind_return _ _ _ _ _ Gs).
  rewrite (bind_return _ _ _ _ _ Gn).
  rewrite (bind_return _ _ _ _ _ (spread_props_object h n N HN)).
  rewrite (bind_return _ _ _ _ _ Gp), (bind_return _ _ _ _ _ Gs).
  rewrite (bind_return _ _ _ _ _ Gn).
  rewrite (bind_return _ _ _ _ _ (get_prop_object h n N "sms" HN)).
  unfold bind, alloc. simpl. rewrite !length_app. simpl.
  rewrite <- !app_assoc. simpl.
  by replace (length h + 1 + 1) with (length h + 2) by lia;
     replace (length h + 2 + 1) with (length h + 3) by lia.
Qed.

Lemma nested_user_toggled (h : list object) U P S (N' : gmap string value) :
  nested_user
    (h ++ [ Obj N'; Obj (<["notifications" := VRef (length h)]> S);
            Obj (<["settings" := VRef (length h + 1)]> P);
            Obj (<["profile" := VRef (length h + 2)]> U) ])
    (VRef (length h + 3))
    (<["profile" := VRef (length h + 2)]> U)
    (<["settings" := VRef (length h + 1)]> P)
    (<["notifications" := VRef (length h)]> S)
    N' (length h + 2) (length h + 1) (length h).
Proof.
  destruct (lookup_new_4 h (Obj N')
              (Obj (<["notifications" := VRef (length h)]> S))
              (Obj (<["settings" := VRef (length h + 1)]> P))
              (Obj (<["profile" := VRef (length h + 2)]> U)))
    as (L0 & L1 & L2 & L3).
  exists (length h + 3). by rewrite !lookup_insert_eq.
Qed.

(** X23: toggling the SMS notifications of a user returns a new user
    whose profile, settings and notification settings are new objects;
    each of the four has the properties of the object it replaces, but
    for the one property that leads to [sms], and [sms] is the negation
    of what it was.  Nothing that existed before the call is changed. *)
Theorem userReducer_toggle h user action U P S N p s n :
  nested_user h user U P S N p s n ->
  read h action "type" = VString "toggle_notifications" ->
  ∃ h' u' p' s' n',
    userReducer user action h = (h', Return (VRef u')) ∧
    nested_user h' (VRef u')
      (<["profile" := VRef p']> U)
      (<["settings" := VRef s']> P)
      (<["notifications" := VRef n']> S)
      (<["sms" := VBool (negb (truthy (default VUndefined (N !! "sms"))))]> N)
      p' s' n' ∧
    h !! u' = None ∧ h !! p' = None ∧ h !! s' = None ∧ h !! n' = None ∧
    ∀ l o, h !! l = Some o -> h' !! l = Some o.
Proof.
  intros Hu Hty.
  eexists _, _, _, _, _. split; [by apply (run_toggle h user action U P S N p s n)|].
  destruct Hu as (u & -> & HU & Hp & HP & Hs & HS & Hn & HN).
  split; [by apply nested_user_toggled|].
  repeat split; try (apply lookup_ge_None_2; lia).
  intros l o Hl. by apply lookup_alloc_old.
Qed.

(** X24: toggling twice gives back a user like the first.  When [sms]
    is a boolean, the user returned by a second toggle has, at each of
    the four levels, the properties of the original user, the nested
    objects being new ones. *)
Theorem userReducer_toggle_twice h user action U P S N p s n b :
  nested_user h user U P S N p s n ->
  read h action "type" = VString "toggle_notifications" ->
  N !! "sms" = Some (VBool b) ->
  ∃ h1 u1,
    userReducer user action h = (h1, Return (VRef u1)) ∧
    ∃ h2 u2 p2 s2 n2,
      userReducer (VRef u1) action h1 = (h2, Return (VRef u2)) ∧
      nested_user h2 (VRef u2)
        (<["profile" := VRef p2]> U)
        (<["settings" := VRef s2]> P)
        (<["notifications" := VRef n2]> S)
        N p2 s2 n2.
Proof.
  intros Hu Hty Hsms.
  eexists _, _. split; [by apply (run_toggle h user action U P S N p s n)|].
  destruct Hu as (u & -> & HU & Hp & HP & Hs & HS & Hn & HN).
  rewrite Hsms. change (default VUndefined (Some (VBool b))) with (VBool b).
  replace (truthy (VBool b)) with b by (by destruct b).
  set (N1 := <["sms" := VBool (negb b)]> N).
  set (h1 := h ++ _).
  pose proof (nested_user_toggled h U P S N1) as Hu1.
  fold h1 in Hu1.
  assert (read h1 action "type" = VString "toggle_notifications") as Hty1.
  { unfold h1. rewrite read_extend; [done|].
    apply (read_defined_object _ _ "type"). by rewrite Hty. }
  eexists _, _, _, _, _.
  split; [by apply (run_toggle h1 _ action _ _ _ _ _ _ _ Hu1 Hty1)|].
  unfold N1. rewrite lookup_insert_eq.
  change (default VUndefined (Some (VBool (negb b)))) with (VBool (negb b)).
  replace (truthy (VBool (negb b))) with (negb b) by (by destruct b).
  rewrite Bool.negb_involutive.
  pose proof (nested_user_toggled h1
                (<["profile" := VRef (length h + 2)]> U)
                (<["settings" := VRef (length h + 1)]> P)
                (<["notifications" := VRef (length h)]> S)
                (<["sms" := VBool b]> (<["sms" := VBool (negb b)]> N))) as Hu2.
  rewrite !insert_insert_eq in Hu2 |- *.
  rewrite (insert_id N "sms" (VBool b) Hsms) in Hu2 |- *.
  exact Hu2.
Qed.

Lemma sample_user_nested :
  nested_user sample_user (VRef 3) sample_U sample_P sample_S sample_N 2 1 0.
Proof. exists 3. repeat split; vm_compute; reflexivity. Defined.

Lemma userReducer_toggle_witness :
  nested_user sample_user (VRef 3) sample_U sample_P sample_S sample_N 2 1 0 ∧
  read sample_user (VRef 4) "type" = VString "toggle_notifications" ∧
  ∃ h' u' p' s' n',
    userReducer (VRef 3) (VRef 4) sample_user = (h', Return (VRef u')) ∧
    nested_user h' (VRef u')
      (<["profile" := VRef p']> sample_U)
      (<["settings" := VRef s']> sample_P)
      (<["notifications" := VRef n']> sample_S)
      (<["sms" := VBool (negb (truthy (default VUndefined (sample_N !! "sms"))))]>
         sample_N)
      p' s' n' ∧
    sample_user !! u' = None ∧ sample_user !! p' = None ∧
    sample_user !! s' = None ∧ sample_user !! n' = None ∧
    ∀ l o, sample_user !! l = Some o -> h' !! l = Some o.
Proof.
  split; [exact sample_user_nested|]. split; [vm_compute; reflexivity|].
  apply (userReducer_toggle sample_user (VRef 3) (VRef 4) _ _ _ _ _ _ _
           sample_user_nested).
  vm_compute. reflexivity.
Defined.

Lemma userReducer_toggle_twice_witness :
  nested_user sample_user (VRef 3) sample_U sample_P sample_S sample_N 2 1 0 ∧
  read sample_user (VRef 4) "type" = VString "toggle_notifications" ∧
  sample_N !! "sms" = Some (VBool true) ∧
  ∃ h1 u1,
    userReducer (VRef 3) (VRef 4) sample_user = (h1, Return (VRef u1)) ∧
    ∃ h2 u2 p2 s2 n2,
      userReducer (VRef u1) (VRef 4) h1 = (h2, Return (VRef u2)) ∧
      nested_user h2 (VRef u2)
        (<["profile" := VRef p2]> sample_U)
        (<["settings" := VRef s2]> sample_P)
        (<["notifications" := VRef n2]> sample_S)
        sample_N p2 s2 n2.
Proof.
  split; [exact sample_user_nested|]. split; [vm_compute; reflexivity|].
  split; [vm_compute; reflexivity|].
  apply (userReducer_toggle_twice sample_user (VRef 3) (VRef 4) _ _ _ _ _ _ _ true
           sample_user_nested); vm_compute; reflexivity.
Defined.

(** ** The theorems at work on the sample stores *)

Lemma sample2_tasks_list : tasks_list sample2 2 [VRef 0; VRef 1].
Proof. split; vm_compute; reflexivity. Defined.

Lemma handleAddTask_refactoring_witness :
  tasks_list sample 2 [VRef 0; VRef 1] ∧
  ∃ c h1 r1 h2 r2,
    handleAddTask_useState 2 2 (VString "c") sample = (h1, Return (c, r1)) ∧
    handleAddTask_useReducer 2 2 (VString "c") sample = (h2, Return (c, r2)) ∧
    observe (h1, Return r1) =
      Return (Some (map (view sample) [VRef 0; VRef 1]
                    ++ [inr (new_task (VNumber 2) (VString "c"))])) ∧
    observe (h2, Return r2) = observe (h1, Return r1) ∧
    ((- Double.two53 <= 2 < Double.two53)%Z -> c = (2 + 1)%Z).
Proof.
  split; [exact sample_tasks_list|].
  exact (handleAddTask_refactoring sample 2 2 [VRef 0; VRef 1] (VString "c")
           sample_tasks_list).
Defined.

Lemma changed_keeps_ids_witness :
  tasks_list sample 2 [VRef 0; VRef 1] ∧
  read sample (VRef 5) "type" = VString "changed" ∧
  read sample (VRef 5) "task" = VRef 4 ∧
  nullish (VRef 4) = false ∧
  ∃ h' r es',
    tasksReducer 2 (VRef 5) sample = (h', Return (VRef r)) ∧
    h' !! r = Some (Arr es') ∧
    ids h' es' = ids sample [VRef 0; VRef 1].
Proof.
  split; [exact sample_tasks_list|].
  split; [vm_compute; reflexivity|]. split; [vm_compute; reflexivity|].
  split; [reflexivity|].
  apply (changed_keeps_ids sample 2 [VRef 0; VRef 1] (VRef 5) (VRef 4));
    [exact sample_tasks_list|vm_compute; reflexivity..].
Defined.

Lemma sample_ids_distinct : NoDup (ids sample [VRef 0; VRef 1]).
Proof. apply (bool_decide_unpack _). vm_compute. reflexivity. Defined.

Lemma sample_id_unused : read sample (VRef 3) "id" ∉ ids sample [VRef 0; VRef 1].
Proof. apply (bool_decide_unpack _). vm_compute. reflexivity. Defined.

Lemma distinct_ids_preserved_witness :
  tasks_list sample 2 [VRef 0; VRef 1] ∧
  NoDup (ids sample [VRef 0; VRef 1]) ∧
  known_type (read sample (VRef 3) "type") ∧
  (read sample (VRef 3) "id" ∉ ids sample [VRef 0; VRef 1]) ∧
  ∃ h' r es',
    tasksReducer 2 (VRef 3) sample = (h', Return (VRef r)) ∧
    h' !! r = Some (Arr es') ∧
    NoDup (ids h' es').
Proof.
  assert (known_type (read sample (VRef 3) "type")) as Hk
    by (left; vm_compute; reflexivity).
  split; [exact sample_tasks_list|]. split; [exact sample_ids_distinct|].
  split; [exact Hk|]. split; [exact sample_id_unused|].
  apply (distinct_ids_preserved sample 2 [VRef 0; VRef 1] (VRef 3)
           sample_tasks_list sample_ids_distinct Hk).
  - intros _. exact sample_id_unused.
  - intros H. vm_compute in H. discriminate H.
Defined.

Lemma changed_deleted_idempotent_witness :
  tasks_list sample 2 [VRef 0; VRef 1] ∧
  read sample (VRef 6) "type" = VString "deleted" ∧
  ∃ h1 r1 es1,
    tasksReducer 2 (VRef 6) sample = (h1, Return (VRef r1)) ∧
    h1 !! r1 = Some (Arr es1) ∧
    ∃ h2 r2,
      tasksReducer r1 (VRef 6) h1 = (h2, Return (VRef r2)) ∧
      h2 !! r2 = Some (Arr es1).
Proof.
  split; [exact sample_tasks_list|]. split; [vm_compute; reflexivity|].
  apply (changed_deleted_idempotent sample 2 [VRef 0; VRef 1] (VRef 6)
           sample_tasks_list).
  left. vm_compute. reflexivity.
Defined.

Lemma empty_list_changed_deleted_witness :
  sample2 !! 10 = Some (Arr []) ∧
  read sample2 (VRef 8) "type" = VString "changed" ∧
  read sample2 (VRef 8) "task" = VUndefined ∧
  tasksReducer 10 (VRef 8) sample2 =
    (sample2 ++ [Arr []], Return (VRef (length sample2))).
Proof.
  split; [reflexivity|]. split; [vm_compute; reflexivity|].
  split; [vm_compute; reflexivity|].
  apply (empty_list_changed_deleted sample2 10 (VRef 8)); [reflexivity|].
  left. vm_compute. reflexivity.
Defined.

Lemma sample2_no_task_with_id :
  Forall (fun t => read sample2 t "id" ≠ read sample2 (VRef 11) "id")
         [VRef 0; VRef 1].
Proof. apply (bool_decide_unpack _). vm_compute. reflexivity. Defined.

Lemma changed_unknown_id_witness :
  tasks_list sample2 2 [VRef 0; VRef 1] ∧
  read sample2 (VRef 12) "type" = VString "changed" ∧
  read sample2 (VRef 12) "task" = VRef 11 ∧
  Forall (fun t => read sample2 t "id" ≠ read sample2 (VRef 11) "id")
         [VRef 0; VRef 1] ∧
  ∃ h' r,
    tasksReducer 2 (VRef 12) sample2 = (h', Return (VRef r)) ∧
    h' !! r = Some (Arr [VRef 0; VRef 1]).
Proof.
  split; [exact sample2_tasks_list|].
  split; [vm_compute; reflexivity|]. split; [vm_compute; reflexivity|].
  split; [exact sample2_no_task_with_id|].
  apply (changed_unknown_id sample2 2 [VRef 0; VRef 1] (VRef 12) (VRef 11));
    [exact sample2_tasks_list|vm_compute; reflexivity|vm_compute; reflexivity|
     reflexivity|exact sample2_no_task_with_id].
Defined.

Lemma impure_reducer_mutates_witness :
  sample !! 2 = Some (Arr [VRef 0; VRef 1]) ∧
  read sample (VRef 3) "type" = VString "added" ∧
  ∃ h' n,
    tasksReducer_impure 2 (VRef 3) sample = (h', Return (VRef 2)) ∧
    h' !! 2 = Some (Arr ([VRef 0; VRef 1] ++ [VRef n])) ∧
    sample !! n = None ∧
    h' !! n = Some (Obj (<["id" := read sample (VRef 3) "id"]>
                           (<["text" := read sample (VRef 3) "text"]> ∅))) ∧
    ∀ l o, l ≠ 2 -> sample !! l = Some o -> h' !! l = Some o.
Proof.
  split; [reflexivity|]. split; [vm_compute; reflexivity|].
  apply (impure_reducer_mutates sample 2 [VRef 0; VRef 1] (VRef 3));
    [reflexivity|vm_compute; reflexivity].
Defined.

Lemma pure_reducer_same_result_no_mutation_witness :
  tasks_list sample 2 [VRef 0; VRef 1] ∧
  read sample (VRef 3) "type" = VString "added" ∧
  ∃ h1 r h2,
    tasksReducer_pure 2 (VRef 3) sample = (h1, Return (VRef r)) ∧
    r ≠ 2 ∧ sample !! r = None ∧
    (∀ l o, sample !! l = Some o -> h1 !! l = Some o) ∧
    tasksReducer_impure 2 (VRef 3) sample = (h2, Return (VRef 2)) ∧
    observe (h1, Return (VRef r)) = observe (h2, Return (VRef 2)).
Proof.
  split; [exact sample_tasks_list|]. split; [vm_compute; reflexivity|].
  apply (pure_reducer_same_result_no_mutation sample 2 [VRef 0; VRef 1] (VRef 3));
    [exact sample_tasks_list|vm_compute; reflexivity].
Defined.

Lemma purity_reducers_other_actions_witness :
  nullish (VRef 6) = false ∧
  read sample (VRef 6) "type" ≠ VString "added" ∧
  tasksReducer_impure 2 (VRef 6) sample = (sample, Return VUndefined) ∧
  tasksReducer_pure 2 (VRef 6) sample = (sample, Return VUndefined).
Proof.
  assert (read sample (VRef 6) "type" ≠ VString "added") as Hty
    by (vm_compute; discriminate).
  split; [reflexivity|]. split; [exact Hty|].
  exact (purity_reducers_other_actions sample 2 (VRef 6) eq_refl Hty).
Defined.

End ReducerMore.

(** * More on the cart hook *)
Module CartMore.
Import Cart.

Lemma sum_abs_prices_nonneg its : (0 <= sum_abs_prices its)%Z.
Proof. unfold sum_abs_prices. induction its; simpl; lia. Qed.

(** X11: adding items one after the other appends them to the cart in
    the order of the calls and adds their prices to the total, each
    addition being exact, when the prices are integers whose absolute
    values, with that of the current total, add up to at most 2^53 (the
    range in which numbers hold every integer); from the initial state
    the total is then the sum of the prices of the items in the cart. *)
Theorem addItem_sequence its s :
  (Z.abs s.(total) + sum_abs_prices its <= Double.two53)%Z ->
  run (AddItem <$> its) s =
    Return {| items := s.(items) ++ its;
              total := (s.(total) + sum_prices its)%Z |} ∧
  run (AddItem <$> its) initial =
    Return {| items := its; total := sum_prices its |}.
Proof.
  assert (∀ s, (Z.abs s.(total) + sum_abs_prices its <= Double.two53)%Z ->
               run (AddItem <$> its) s =
               Return {| items := s.(items) ++ its;
                         total := (s.(total) + sum_prices its)%Z |}) as Hgen.
  { induction its as [|it its IH]; intros [its0 t0] Hsafe.
    - simpl. by rewrite app_nil_r, Z.add_0_r.
    - change (sum_abs_prices (it :: its))
        with (Z.abs it.(price) + sum_abs_prices its)%Z in Hsafe.
      change (sum_prices (it :: its)) with (it.(price) + sum_prices its)%Z.
      pose proof (sum_abs_prices_nonneg its) as Hpos.
      simpl in *. rewrite DoubleSpec.add_exact by lia.
      rewrite IH by (simpl; lia). simpl.
      rewrite <- app_assoc. do 2 f_equal. lia. }
  intros Hsafe. split; [by apply Hgen|].
  pose proof (Z.abs_nonneg (total s)).
  rewrite Hgen; [done|]. simpl. lia.
Qed.

Lemma addItem_sequence_witness :
  (Z.abs initial.(total)
   + sum_abs_prices [ {| id := 1; price := 10 |}; {| id := 2; price := -3 |} ]
   <= Double.two53)%Z ∧
  run (AddItem <$> [ {| id := 1; price := 10 |}; {| id := 2; price := -3 |} ])
      initial =
    Return {| items := [ {| id := 1; price := 10 |}; {| id := 2; price := -3 |} ];
              total := 7 |}.
Proof.
  assert (Z.abs initial.(total)
          + sum_abs_prices [ {| id := 1; price := 10 |}; {| id := 2; price := -3 |} ]
          <= Double.two53)%Z as Hsafe by (vm_compute; discriminate).
  split; [exact Hsafe|].
  exact (proj2 (addItem_sequence
                  [ {| id := 1; price := 10 |}; {| id := 2; price := -3 |} ]
                  initial Hsafe)).
Defined.

(** Beyond that range the total is not the sum: a price of 1 added to a
    total of 2^53 leaves it as it was. *)
Example addItem_rounds :
  run [AddItem {| id := 1; price := Double.two53 |}; AddItem {| id := 2; price := 1 |}]
      initial =
    Return {| items := [ {| id := 1; price := Double.two53 |};
                         {| id := 2; price := 1 |} ];
              total := Double.two53 |}.
Proof. vm_compute. reflexivity. Qed.

(** X12: a sequence of calls goes through iff it holds no call of
    [removeItem]; when it does hold one the render that follows the
    first of them throws a TypeError. *)
Theorem run_returns_iff_no_removeItem cs s :
  ((∃ s', run cs s = Return s') <->
   Forall (fun c => match c with AddItem _ => True | RemoveItem _ => False end) cs) ∧
  ((∀ s', run cs s ≠ Return s') -> run cs s = Throw TypeError).
Proof.
  revert s. induction cs as [|c cs IH]; intros s.
  - split; [|intros H; by destruct (H s)].
    split; [by constructor|by exists s].
  - destruct c as [it|i]; simpl.
    + destruct (IH {| items := items s ++ [it];
                       total := Double.add (total s) (price it) |})
        as [IH1 IH2].
      split; [|done]. rewrite IH1. split; [by constructor|by inversion 1].
    + split; [|done]. split; [by intros [s' ?]|by inversion 1].
Qed.

End CartMore.

(** * More on props and on rendering *)
Module RenderingMoreSpec.
Import JSX PropsExample PropsMore ConditionalRendering RenderingMore.
Import ConditionalRenderingSpec.

(** X13: [GenericButton] hands every prop it receives to the button,
    with the value it received; the class ["generic-style"] is applied
    only when the caller passes no [className], and nothing else is
    added; the children are the caller's. *)
Theorem GenericButton_passes_props props children :
  ∃ attrs,
    GenericButton props children = Element (Host "button") attrs children ∧
    (∀ k v, props !! k = Some v -> attrs !! k = Some v) ∧
    (props !! "className" = None ->
     attrs !! "className" = Some (VString "generic-style")) ∧
    (∀ k, k ≠ "className" -> props !! k = None -> attrs !! k = None).
Proof.
  eexists. split; [reflexivity|]. split; [|split].
  - intros k v Hk. by apply lookup_union_Some_l.
  - intros Hno. rewrite lookup_union_r by done. by rewrite lookup_insert_eq.
  - intros k Hk Hno. rewrite lookup_union_r by done.
    by rewrite lookup_insert_ne.
Qed.

(** X14: the [Avatar] of the lesson text needs its [person] prop.
    Without one (or with [null]) it throws a TypeError; with a person it
    returns an [img] whose [src] and [alt] are the [imageId] and the
    [name] of the person, and whose width and height are the [size]
    prop. *)
Theorem Avatar_documented_person props :
  (prop props "person" = VUndefined ∨ prop props "person" = VNull ->
   Avatar_documented props = Throw TypeError) ∧
  (∀ fields, prop props "person" = VObject fields ->
   ∃ img,
     Avatar_documented props = Return (Element (Host "img") img []) ∧
     prop img "src" = prop fields "imageId" ∧
     prop img "alt" = prop fields "name" ∧
     prop img "width" = prop props "size" ∧
     prop img "height" = prop props "size").
Proof.
  unfold Avatar_documented. split.
  - by intros [-> | ->].
  - intros fields ->. cbn [get_field]. eexists. split; [reflexivity|].
    repeat split; unfold prop at 1; by simplify_map_eq.
Qed.

(** X15: the fourth [Item], which computes its content in a variable,
    returns the same element as the one written with the ternary
    operator, and shows what the other two show. *)
Theorem Item_variable_equivalent (name : string) (isPacked : bool) :
  Item_variable name isPacked = Item_ternary name isPacked ∧
  visibleContent (Item_variable name isPacked) =
    visibleContent (Item_if name isPacked) ∧
  visibleContent (Item_variable name isPacked) =
    visibleContent (Item_and name isPacked).
Proof.
  assert (Item_variable name isPacked = Item_ternary name isPacked) as ->
    by by destruct isPacked.
  destruct (Item_text_contents name) as (H1 & H2 & H3 & H4 & H5 & H6).
  split; [done|]. unfold visibleContent.
  destruct isPacked.
  - by rewrite H1, H2, H3.
  - rewrite H4, H5, H6. simpl. by rewrite visible_trailing_space.
Qed.

(** X16: the count on the left of [&&].  For every integer count,
    [messageCount && <h1>...</h1>] shows the heading when the count is
    not 0 and the text ["0"] when it is 0, while
    [messageCount > 0 && <h1>...</h1>] shows the heading when the count
    is positive and nothing otherwise; the two show the same text
    exactly for the positive counts. *)
Theorem messages_and_zero (messageCount : Z) :
  textContent (messages_and messageCount) =
    Some (if decide (messageCount = 0%Z) then "0" else "You have messages!") ∧
  textContent (messages_positive messageCount) =
    Some (if decide (0 < messageCount)%Z then "You have messages!" else "") ∧
  (textContent (messages_and messageCount) =
   textContent (messages_positive messageCount) <-> (0 < messageCount)%Z).
Proof.
  unfold messages_and, messages_positive, number_and.
  destruct (Z.eqb_spec messageCount 0) as [Heq|Hne];
    destruct (Z.ltb_spec 0 messageCount) as [Hlt|Hge];
    repeat case_decide; try lia; simpl; rewrite ?Heq.
  - split; [done|]. split; [done|]. split; [done|intros ?; exfalso; lia].
  - split; [done|]. split; [done|]. split; [done|done].
  - split; [done|]. split; [done|]. split; [done|intros ?; exfalso; lia].
Qed.

(** ** The list of recipes *)

Lemma RecipeList_objects (recipes : list (gmap string value)) :
  RecipeList (VObject <$> recipes) =
    Return ((fun r =>
               {| key := key_of (prop r "id");
                  element :=
                    Element Fragment ∅
                      [ Element (Host "h2") ∅ [Expr (prop r "name")];
                        Element (Host "p") ∅ [Expr (prop r "description")] ] |})
              <$> recipes).
Proof.
  unfold RecipeList. induction recipes as [|r recipes IH]; [done|].
  rewrite !fmap_cons. cbn [map_outcome]. by rewrite IH.
Qed.

(** X17: given recipes that are objects with pairwise distinct ids, the
    ids being integers of at most 2^53 in absolute value, [RecipeList]
    returns one fragment per recipe, in the order of the recipes, each
    holding the name and the description of its recipe; the keys of
    these siblings are the ids written in decimal, and are pairwise
    distinct. *)
Theorem RecipeList_distinct_keys (recipes : list (gmap string value)) (zs : list Z) :
  Forall2 (fun r z => r !! "id" = Some (VNumber z)) recipes zs ->
  Forall (fun z => (Z.abs z <= Double.two53)%Z) zs ->
  NoDup zs ->
  ∃ l,
    RecipeList (VObject <$> recipes) = Return l ∧
    Forall2 (fun r k =>
               k.(element) =
                 Element Fragment ∅
                   [ Element (Host "h2") ∅ [Expr (prop r "name")];
                     Element (Host "p") ∅ [Expr (prop r "description")] ])
            recipes l ∧
    key <$> l = (fun z => Some (pretty z)) <$> zs ∧
    NoDup (key <$> l).
Proof.
  intros Hids Hsafe Hnd. eexists. split; [apply RecipeList_objects|].
  assert (key <$> ((fun r =>
               {| key := key_of (prop r "id");
                  element :=
                    Element Fragment ∅
                      [ Element (Host "h2") ∅ [Expr (prop r "name")];
                        Element (Host "p") ∅ [Expr (prop r "description")] ] |})
              <$> recipes) = (fun z => Some (pretty z)) <$> zs) as Hkeys.
  { clear Hnd. induction Hids as [|r z recipes zs Hr _ IH]; [done|].
    apply Forall_cons in Hsafe as [Hz Hsafe].
    rewrite !fmap_cons, (IH Hsafe). simpl. unfold prop. rewrite Hr. simpl.
    by rewrite (DoubleSpec.to_string_exact z Hz). }
  split; [|split; [done|]].
  - clear. induction recipes as [|r recipes IH]; by constructor.
  - rewrite Hkeys. apply NoDup_fmap_2; [|done].
    intros z1 z2 [= Heq]. by apply (inj pretty).
Qed.

Lemma RecipeList_distinct_keys_witness :
  Forall2 (fun r z => r !! "id" = Some (VNumber z)) sample_recipes [1%Z; 2%Z] ∧
  Forall (fun z => (Z.abs z <= Double.two53)%Z) [1%Z; 2%Z] ∧
  NoDup [1%Z; 2%Z] ∧
  ∃ l,
    RecipeList (VObject <$> sample_recipes) = Return l ∧
    Forall2 (fun r k =>
               k.(element) =
                 Element Fragment ∅
                   [ Element (Host "h2") ∅ [Expr (prop r "name")];
                     Element (Host "p") ∅ [Expr (prop r "description")] ])
            sample_recipes l ∧
    key <$> l = (fun z => Some (pretty z)) <$> [1%Z; 2%Z] ∧
    NoDup (key <$> l).
Proof.
  assert (Forall2 (fun r z => r !! "id" = Some (VNumber z))
                  sample_recipes [1%Z; 2%Z]) as Hids
    by (repeat constructor; vm_compute; reflexivity).
  assert (Forall (fun z => (Z.abs z <= Double.two53)%Z) [1%Z; 2%Z]) as Hsafe
    by (repeat constructor; vm_compute; discriminate).
  assert (NoDup [1%Z; 2%Z]) as Hnd
    by (apply (bool_decide_unpack _); vm_compute; reflexivity).
  split; [exact Hids|]. split; [exact Hsafe|]. split; [exact Hnd|].
  exact (RecipeList_distinct_keys sample_recipes [1%Z; 2%Z] Hids Hsafe Hnd).
Defined.

End RenderingMoreSpec.

(** * The lesson on resetting and preserving state *)
Module StateLessonsSpec.
Import JSX RenderingMore StateLessons.

(** ** The address book *)

Lemma is_selected_true v sel :
  is_selected v sel = true <-> v = selected_value sel.
Proof.
  destruct v, sel; simpl; try (split; congruence).
  - rewrite Z.eqb_eq. split; congruence.
  - rewrite String.eqb_eq. split; congruence.
Qed.

Lemma find_contact_not_selected (cs : list (gmap string value)) sel :
  Forall (fun c => is_selected (prop c "id") sel = false) cs ->
  find_contact (VObject <$> cs) sel = Return VUndefined.
Proof.
  induction 1 as [|c cs Hc _ IH]; [done|]. simpl. by rewrite Hc.
Qed.

Lemma find_contact_first (before after : list (gmap string value)) c sel :
  Forall (fun b => is_selected (prop b "id") sel = false) before ->
  is_selected (prop c "id") sel = true ->
  find_contact (VObject <$> (before ++ c :: after)) sel = Return (VObject c).
Proof.
  intros Hb Hc. induction Hb as [|b before Hb _ IH]; simpl.
  - by rewrite Hc.
  - by rewrite Hb.
Qed.

(** What [find] returns, when it is not [undefined], has the selected
    id. *)
Lemma find_contact_id contacts sel c :
  find_contact contacts sel = Return c -> truthy c = true ->
  get_field c "id" = Return (selected_value sel) ∧ c ∈ contacts.
Proof.
  induction contacts as [|c0 contacts IH]; simpl.
  { by intros [= <-]. }
  destruct (get_field c0 "id") as [id|e] eqn:Hid; [|done].
  destruct (is_selected id sel) eqn:Hsel.
  - intros [= <-] _. apply is_selected_true in Hsel as ->.
    split; [done|left].
  - intros Hf Ht. destruct (IH Hf Ht). split; [done|by right].
Qed.

(** X18: the address book shows the form of the selected contact.  When
    no contact has the selected id the [div] is empty; otherwise it
    holds one form, for the first contact with that id, and the key of
    the form is the selected id. *)
Theorem AddressBook_selection (before after : list (gmap string value)) c sel :
  Forall (fun b => is_selected (prop b "id") sel = false) before ->
  (is_selected (prop c "id") sel = true ->
   AddressBook (VObject <$> (before ++ c :: after)) sel =
     Return (EditContactForm (key_of (selected_value sel)) (VObject c))) ∧
  AddressBook (VObject <$> before) sel = Return (Value VUndefined).
Proof.
  intros Hb. split.
  - intros Hc. unfold AddressBook.
    rewrite (find_contact_first before after c sel Hb Hc). simpl.
    apply is_selected_true in Hc. fold (prop c "id"). by rewrite Hc.
  - unfold AddressBook. by rewrite (find_contact_not_selected before sel Hb).
Qed.

(** X19: the key follows the selection.  Whatever the contacts, two
    forms that the address book shows for two different selected ids,
    integers of at most 2^53 in absolute value, have different keys,
    the two ids written in decimal (so that React resets the state of
    the form when the selection changes). *)
Theorem AddressBook_key_changes contacts z1 z2 k1 c1 k2 c2 :
  (Z.abs z1 <= Double.two53)%Z ->
  (Z.abs z2 <= Double.two53)%Z ->
  AddressBook contacts (IdNumber z1) = Return (EditContactForm k1 c1) ->
  AddressBook contacts (IdNumber z2) = Return (EditContactForm k2 c2) ->
  z1 ≠ z2 ->
  k1 = Some (pretty z1) ∧ k2 = Some (pretty z2) ∧ k1 ≠ k2.
Proof.
  assert (∀ z k c, (Z.abs z <= Double.two53)%Z ->
                   AddressBook contacts (IdNumber z) = Return (EditContactForm k c) ->
                   k = Some (pretty z)) as Hkey.
  { intros z k c Hz. unfold AddressBook.
    destruct (find_contact contacts (IdNumber z)) as [found|e] eqn:Hf; [|done].
    destruct (truthy found) eqn:Ht; [|done].
    destruct (find_contact_id _ _ _ Hf Ht) as [-> _]. simpl.
    rewrite (DoubleSpec.to_string_exact z Hz). by intros [= <- _]. }
  intros Hz1 Hz2 H1 H2 Hne. rewrite (Hkey _ _ _ Hz1 H1), (Hkey _ _ _ Hz2 H2).
  split; [done|]. split; [done|].
  intros [= Heq]. by apply Hne, (inj pretty).
Qed.

(** ** Lifting the drafts up *)

Lemma ChatApp_run_app s es1 es2 :
  ChatApp_run s (es1 ++ es2) = ChatApp_run (ChatApp_run s es1) es2.
Proof. apply fold_left_app. Qed.

Lemma ChatApp_run_changes s ys r :
  r ≠ s.(recipient) ->
  (ChatApp_run s (DraftChange <$> ys)).(recipient) = s.(recipient) ∧
  (ChatApp_run s (DraftChange <$> ys)).(drafts) !! r = s.(drafts) !! r.
Proof.
  revert s. induction ys as [|y ys IH]; intros s Hr; [done|].
  rewrite fmap_cons. unfold ChatApp_run. cbn [fold_left].
  fold (ChatApp_run (ChatApp_handle s (DraftChange y)) (DraftChange <$> ys)).
  destruct (IH (ChatApp_handle s (DraftChange y)) Hr) as [-> ->].
  simpl. by rewrite lookup_insert_ne.
Qed.

(** X20: the [Chat] is always given a draft.  After any sequence of
    clicks and draft changes from the initial state, the recipient is
    ["alice"] or ["bob"] and the [draft] prop is a string, never
    [undefined]. *)
Theorem ChatApp_draft_defined es :
  ∃ r d,
    Chat_props (ChatApp_run ChatApp_initial es) = (r, Some d) ∧
    (r = "alice" ∨ r = "bob").
Proof.
  assert (∀ s, (s.(recipient) = "alice" ∨ s.(recipient) = "bob") ->
               is_Some (s.(drafts) !! "alice") ->
               is_Some (s.(drafts) !! "bob") ->
               let s' := ChatApp_run s es in
               (s'.(recipient) = "alice" ∨ s'.(recipient) = "bob") ∧
               is_Some (s'.(drafts) !! "alice") ∧
               is_Some (s'.(drafts) !! "bob")) as Hinv.
  { induction es as [|e es IH]; intros s Hr Ha Hb; [done|].
    simpl. apply IH; destruct e; simpl; auto;
      rewrite lookup_insert_is_Some'; auto. }
  destruct (Hinv ChatApp_initial) as (Hr & [da Ha] & [db Hb]); [by left|done..|].
  unfold Chat_props. destruct Hr as [Hr|Hr]; rewrite Hr.
  - rewrite Ha. eauto.
  - rewrite Hb. eauto.
Qed.

(** X21: a draft survives the absence of its chat.  A draft typed for
    one recipient is the draft the [Chat] is given again after a switch
    to the other recipient, any number of draft changes there and a
    switch back. *)
Theorem ChatApp_draft_preserved s x ys :
  (s.(recipient) = "alice" ->
   Chat_props (ChatApp_run s ([DraftChange x; ClickBob]
                              ++ (DraftChange <$> ys) ++ [ClickAlice])) =
     ("alice", Some x)) ∧
  (s.(recipient) = "bob" ->
   Chat_props (ChatApp_run s ([DraftChange x; ClickAlice]
                              ++ (DraftChange <$> ys) ++ [ClickBob])) =
     ("bob", Some x)).
Proof.
  split; intros Hr; rewrite !ChatApp_run_app; simpl; unfold Chat_props; simpl.
  - set (s1 := {| recipient := "bob"; drafts := <[recipient s:=x]> (drafts s) |}).
    destruct (ChatApp_run_changes s1 ys "alice") as [_ ->]; [done|].
    simpl. by rewrite Hr, lookup_insert_eq.
  - set (s1 := {| recipient := "alice"; drafts := <[recipient s:=x]> (drafts s) |}).
    destruct (ChatApp_run_changes s1 ys "bob") as [_ ->]; [done|].
    simpl. by rewrite Hr, lookup_insert_eq.
Qed.

(** ** Keeping the draft in the local storage *)

(** X22: what the effect saves is what the next mount starts from.  For
    every recipient and draft, a [Chat] mounted after the effect has run
    starts with the saved draft; and saving the draft of one recipient
    does not change the draft that a [Chat] for another recipient starts
    with. *)
Theorem Chat_draft_restored recipient draft other localStorage :
  Chat_initial_draft recipient (Chat_save_effect recipient draft localStorage)
    = draft ∧
  (other ≠ recipient ->
   Chat_initial_draft other (Chat_save_effect recipient draft localStorage)
     = Chat_initial_draft other localStorage).
Proof.
  unfold Chat_initial_draft, Chat_save_effect. split.
  - rewrite lookup_insert_eq. by destruct (String.eqb_spec draft "").
  - intros Hne. rewrite lookup_insert_ne; [done|].
    unfold draft_key. intros Heq. by apply Hne, (inj (String.app "chat-draft-")).
Qed.

(** ** The theorems at work on the sample contacts *)

Lemma AddressBook_selection_witness :
  Forall (fun b => is_selected (prop b "id") (IdNumber 1) = false)
         (take 1 sample_contacts) ∧
  (is_selected (prop (sample_contacts !!! 1) "id") (IdNumber 1) = true ->
   AddressBook (VObject <$> (take 1 sample_contacts
                             ++ sample_contacts !!! 1 :: drop 2 sample_contacts))
               (IdNumber 1) =
     Return (EditContactForm (key_of (selected_value (IdNumber 1)))
                             (VObject (sample_contacts !!! 1)))) ∧
  AddressBook (VObject <$> take 1 sample_contacts) (IdNumber 1) =
    Return (Value VUndefined).
Proof.
  assert (Forall (fun b => is_selected (prop b "id") (IdNumber 1) = false)
                 (take 1 sample_contacts)) as Hb
    by (repeat constructor).
  split; [exact Hb|].
  exact (AddressBook_selection (take 1 sample_contacts) (drop 2 sample_contacts)
           (sample_contacts !!! 1) (IdNumber 1) Hb).
Defined.

Lemma AddressBook_key_changes_witness :
  (Z.abs 1 <= Double.two53)%Z ∧ (Z.abs 2 <= Double.two53)%Z ∧
  AddressBook (VObject <$> sample_contacts) (IdNumber 1) =
    Return (EditContactForm (Some "1") (VObject (sample_contacts !!! 1))) ∧
  AddressBook (VObject <$> sample_contacts) (IdNumber 2) =
    Return (EditContactForm (Some "2") (VObject (sample_contacts !!! 2))) ∧
  1%Z ≠ 2%Z ∧
  Some "1" = Some (pretty 1%Z) ∧ Some "2" = Some (pretty 2%Z) ∧
  Some "1" ≠ Some "2".
Proof.
  assert (AddressBook (VObject <$> sample_contacts) (IdNumber 1) =
          Return (EditContactForm (Some "1") (VObject (sample_contacts !!! 1))))
    as H1 by (vm_compute; reflexivity).
  assert (AddressBook (VObject <$> sample_contacts) (IdNumber 2) =
          Return (EditContactForm (Some "2") (VObject (sample_contacts !!! 2))))
    as H2 by (vm_compute; reflexivity).
  assert (1%Z ≠ 2%Z) as Hne by lia.
  assert (Z.abs 1 <= Double.two53)%Z as Hz1 by (vm_compute; discriminate).
  assert (Z.abs 2 <= Double.two53)%Z as Hz2 by (vm_compute; discriminate).
  split; [exact Hz1|]. split; [exact Hz2|].
  split; [exact H1|]. split; [exact H2|]. split; [exact Hne|].
  exact (AddressBook_key_changes _ 1 2 _ _ _ _ Hz1 Hz2 H1 H2 Hne).
Defined.

End StateLessonsSpec.
